(** * logReader: log store, retention sweep and in-memory index of server.js

    A shallow embedding of the log server (the HTTP request handler with its
    two helpers [cleanupOldLogs] and [loadLogsFromFiles]) and the properties
    its specification states about it.

    Conventions of the embedding.
    - A JavaScript value that reaches the code is a JSON value ([json]);
      [undefined] is [None] of [option json].  Numbers are integers.
    - A JavaScript exception is the [Throw] case of [completion]; [try/catch]
      is a [match] on it.
    - The file system is an association list from absolute paths to nodes, in
      directory enumeration order.
    - What the engine and Node provide and the repository does not define
      ([JSON.parse], [JSON.stringify], [Date.parse], [String(v)], the text of
      an error, [__dirname]) is the interface [Platform]; [Node] below is an
      instance that computes. *)

From Stdlib Require Import ZArith List String Ascii Bool Arith Lia.
From Stdlib Require Import Permutation Sorted DecimalString.
Import ListNotations.

Local Open Scope string_scope.
Local Open Scope list_scope.

(* ------------------------------------------------------------------------- *)
(** ** JavaScript values                                                      *)
(* ------------------------------------------------------------------------- *)

#[warnings="-register-all"]
Inductive json : Type :=
| JNull
| JBool (b : bool)
| JNum (n : Z)
| JStr (s : string)
| JArr (elems : list json)
| JObj (props : list (string * json)).

Inductive error : Type :=
| SyntaxError   (* JSON.parse on malformed text *)
| TypeError     (* property read on null, call of a non-function *)
| ENOENT        (* no such file *)
| EISDIR        (* the path is a directory *)
| EPERM.        (* the file may not be changed or removed *)

Inductive completion (A : Type) : Type :=
| Normal (a : A)
| Throw (e : error).

Arguments Normal {A} a.
Arguments Throw {A} e.

Definition bind {A B : Type} (c : completion A) (k : A -> completion B)
  : completion B :=
  match c with
  | Normal a => k a
  | Throw e => Throw e
  end.

Notation "x <- c ;; k" := (bind c (fun x => k))
  (at level 61, c at next level, right associativity).

Fixpoint assoc {A : Type} (key : string) (l : list (string * A)) : option A :=
  match l with
  | [] => None
  | (k, v) :: l' => if String.eqb k key then Some v else assoc key l'
  end.

(** [v.key] for the keys the server reads ([timestamp], [logData],
    [fileName]): a TypeError on [null], the own property of an object,
    [undefined] on every other value. *)
Definition get (v : json) (key : string) : completion (option json) :=
  match v with
  | JNull => Throw TypeError
  | JObj props => Normal (assoc key props)
  | _ => Normal None
  end.

(** ToBoolean, as in [!logData] and [a.timestamp || 0]. *)
Definition ToBoolean (v : option json) : bool :=
  match v with
  | None => false
  | Some JNull => false
  | Some (JBool b) => b
  | Some (JNum n) => negb (n =? 0)%Z
  | Some (JStr s) => negb (s =? "")
  | Some (JArr _) => true
  | Some (JObj _) => true
  end.

(** [Array.isArray(v) ? v : [v]] *)
Definition as_array (v : json) : list json :=
  match v with JArr elems => elems | _ => [v] end.

(** A Date object: its time value in milliseconds since the epoch, or the
    Invalid Date (time value NaN). *)
Inductive jsdate : Type :=
| InvalidDate
| Time (ms : Z).

Definition TimeClip (t : Z) : jsdate :=
  if (Z.abs t <=? 8640000000000000)%Z then Time t else InvalidDate.

(** [a < b] on two dates: false as soon as one of them is invalid. *)
Definition date_lt (a b : jsdate) : bool :=
  match a, b with
  | Time x, Time y => (x <? y)%Z
  | _, _ => false
  end.

(** A number as a comparator returns it: [b - a] on two time values. *)
Inductive jsnum : Type :=
| NaN
| Num (z : Z).

Definition date_sub (b a : jsdate) : jsnum :=
  match b, a with
  | Time y, Time x => Num (y - x)
  | _, _ => NaN
  end.

(** Array.prototype.sort reads a comparator's result through SortCompare:
    NaN counts as +0. *)
Definition sort_order (v : jsnum) : Z :=
  match v with NaN => 0%Z | Num z => z end.

Section ArraySort.
Context (comparefn : json -> json -> completion jsnum).

(** Array.prototype.sort.  ECMAScript asks for a stable sort (an element goes
    before another only when the comparator says so) and leaves the array as
    it was when the comparator throws; on at least two elements every element
    is compared at least once.  With a consistent comparator every conforming
    sort returns what this insertion sort returns. *)
Fixpoint sort_insert (x : json) (sorted : list json)
  : completion (list json) :=
  match sorted with
  | [] => Normal [x]
  | y :: rest =>
      c <- comparefn x y ;;
      if (sort_order c <=? 0)%Z then Normal (x :: y :: rest)
      else (r <- sort_insert x rest ;; Normal (y :: r))
  end.

Fixpoint Array_sort (a : list json) : completion (list json) :=
  match a with
  | [] => Normal []
  | x :: rest => s <- Array_sort rest ;; sort_insert x s
  end.

End ArraySort.

(* ------------------------------------------------------------------------- *)
(** ** Strings                                                                *)
(* ------------------------------------------------------------------------- *)

(** [s.endsWith(suffix)]: some tail of [s] is [suffix]. *)
Fixpoint endsWith (s suffix : string) : bool :=
  (s =? suffix) ||
  match s with
  | EmptyString => false
  | String _ s' => endsWith s' suffix
  end.

(** What is left of [s] after the prefix [p], if [s] starts with it. *)
Fixpoint strip_prefix (p s : string) : option string :=
  match p with
  | EmptyString => Some s
  | String c p' =>
      match s with
      | EmptyString => None
      | String d s' => if Ascii.eqb c d then strip_prefix p' s' else None
      end
  end.

(** [s.startsWith(p)] *)
Definition startsWith (s p : string) : bool :=
  match strip_prefix p s with Some _ => true | None => false end.

Definition code (c : ascii) : nat := nat_of_ascii c.

(** The character class [[a-zA-Z0-9_-]]. *)
Definition word_char (c : ascii) : bool :=
  let n := code c in
  (((97 <=? n) && (n <=? 122)) || ((65 <=? n) && (n <=? 90)) ||
   ((48 <=? n) && (n <=? 57)) || (n =? 95) || (n =? 45))%nat.

(** [fileName.replace(/[^a-zA-Z0-9_-]/g, '_')] *)
Fixpoint sanitize (fileName : string) : string :=
  match fileName with
  | EmptyString => EmptyString
  | String c s => String (if word_char c then c else "_"%char) (sanitize s)
  end.

(* ------------------------------------------------------------------------- *)
(** ** Node's path.join (POSIX)                                               *)
(* ------------------------------------------------------------------------- *)

Fixpoint split_slash (s : string) : list string :=
  match s with
  | EmptyString => [EmptyString]
  | String c s' =>
      if Ascii.eqb c "/" then EmptyString :: split_slash s'
      else match split_slash s' with
           | seg :: segs => String c seg :: segs
           | [] => [String c EmptyString]
           end
  end.

(** One segment of normalizeString; [res] is the result so far, last segment
    first. *)
Definition norm_step (allowAboveRoot : bool) (res : list string)
  (seg : string) : list string :=
  if (seg =? "") || (seg =? ".") then res
  else if seg =? ".." then
    match res with
    | top :: rest =>
        if top =? ".." then (if allowAboveRoot then ".." :: res else res)
        else rest
    | [] => if allowAboveRoot then [".."] else []
    end
  else seg :: res.

Definition normalizeString (path : string) (allowAboveRoot : bool) : string :=
  String.concat "/"
    (rev (fold_left (norm_step allowAboveRoot) (split_slash path) [])).

Definition normalize (path : string) : string :=
  if path =? "" then "."
  else
    let isAbsolute := startsWith path "/" in
    let trailingSeparator := endsWith path "/" in
    let p := normalizeString path (negb isAbsolute) in
    if p =? "" then
      (if isAbsolute then "/" else if trailingSeparator then "./" else ".")
    else
      (if isAbsolute then "/" else "") ++ p ++
      (if trailingSeparator then "/" else "").

Definition path_join (args : list string) : string :=
  match filter (fun a => negb (a =? "")) args with
  | [] => "."
  | parts => normalize (String.concat "/" parts)
  end.

(* ------------------------------------------------------------------------- *)
(** ** The file system                                                        *)
(* ------------------------------------------------------------------------- *)

(** A regular file with its text, or a directory.  An immutable file can be
    read but neither rewritten nor removed. *)
Inductive node : Type :=
| File (content : string) (immutable : bool)
| Dir.

Definition filesystem : Type := list (string * node).

Definition existsSync (fs : filesystem) (path : string) : bool :=
  match assoc path fs with Some _ => true | None => false end.

Definition readFileSync (fs : filesystem) (path : string) : completion string :=
  match assoc path fs with
  | Some (File content _) => Normal content
  | Some Dir => Throw EISDIR
  | None => Throw ENOENT
  end.

Definition put (path : string) (n : node) (fs : filesystem) : filesystem :=
  map (fun e => if fst e =? path then (path, n) else e) fs.

Definition remove (path : string) (fs : filesystem) : filesystem :=
  filter (fun e => negb (fst e =? path)) fs.

Definition writeFileSync (fs : filesystem) (path data : string)
  : completion filesystem :=
  match assoc path fs with
  | None => Normal (fs ++ [(path, File data false)])
  | Some (File _ false) => Normal (put path (File data false) fs)
  | Some (File _ true) => Throw EPERM
  | Some Dir => Throw EISDIR
  end.

Definition unlinkSync (fs : filesystem) (path : string)
  : completion filesystem :=
  match assoc path fs with
  | None => Throw ENOENT
  | Some (File _ false) => Normal (remove path fs)
  | Some (File _ true) => Throw EPERM
  | Some Dir => Throw EISDIR
  end.

Fixpoint has_slash (s : string) : bool :=
  match s with
  | EmptyString => false
  | String c s' => Ascii.eqb c "/" || has_slash s'
  end.

(** A name a directory can list: not empty, no separator, not a dot entry. *)
Definition dirent (name : string) : bool :=
  negb (name =? "") && negb (name =? ".") && negb (name =? "..") &&
  negb (has_slash name).

(** The entry of directory [dir] that [path] addresses, if it addresses one. *)
Definition child_of (dir path : string) : option string :=
  match strip_prefix (dir ++ "/") path with
  | Some name => if dirent name then Some name else None
  | None => None
  end.

Definition readdirSync (fs : filesystem) (dir : string) : list string :=
  flat_map (fun e => match child_of dir (fst e) with
                     | Some name => [name]
                     | None => []
                     end) fs.

(* ------------------------------------------------------------------------- *)
(** ** What the engine provides                                               *)
(* ------------------------------------------------------------------------- *)

Class Platform : Type := {
  (** [JSON.parse(text)]; throws SyntaxError *)
  JSON_parse : string -> completion json;
  (** [JSON.stringify(value, null, space)]; [space] is 0 where the source
      passes one argument *)
  JSON_stringify : json -> nat -> string;
  (** [Date.parse(text)] as a Date *)
  Date_parse : string -> jsdate;
  (** [String(value)] of an array or object, as ToPrimitive calls it *)
  ToString : json -> string;
  (** [error.message] *)
  message : error -> string;
  (** the directory of server.js *)
  __dirname : string
}.

(** [new Date(value)] with one argument. *)
Definition new_Date `{Platform} (value : option json) : jsdate :=
  match value with
  | None => InvalidDate
  | Some JNull => Time 0
  | Some (JBool b) => Time (if b then 1 else 0)
  | Some (JNum n) => TimeClip n
  | Some (JStr s) => Date_parse s
  | Some (JArr elems) => Date_parse (ToString (JArr elems))
  | Some (JObj props) => Date_parse (ToString (JObj props))
  end.

(** [const logDir = path.join(__dirname, 'log')]; the directory exists once
    the module has loaded ([mkdirSync] at lines 10-12). *)
Definition logDir `{Platform} : string := path_join [__dirname; "log"].

(** What the server writes with [console.log] and [console.error]. *)
Inductive log_line : Type :=
| CleanupDeleted (file : string) (oldestLog : json)
| CleanupError (file : string) (e : error)
| CleanupComplete (deletedCount : nat)
| ReadError (file : string) (e : error)
| LoadError (e : error)
| SchedulerTick
| ManualCleanup
| ServerError (e : error).

(* ------------------------------------------------------------------------- *)
(** ** cleanupOldLogs                                                         *)
(* ------------------------------------------------------------------------- *)

(** [new Date(now.getTime() - 7 * 24 * 60 * 60 * 1000)] *)
Definition sevenDaysAgo (now : Z) : jsdate :=
  TimeClip (now - 7 * 24 * 60 * 60 * 1000).

(** [logArray.reduce(callback)] on a non-empty array: the first element is the
    initial accumulator. *)
Fixpoint reduce (callback : json -> json -> completion json)
  (rest : list json) (acc : json) : completion json :=
  match rest with
  | [] => Normal acc
  | current :: rest' => a <- callback acc current ;; reduce callback rest' a
  end.

(** The callback of lines 44-48. *)
Definition older `{Platform} (oldest current : json) : completion json :=
  ct <- get current "timestamp" ;;
  ot <- get oldest "timestamp" ;;
  Normal (if date_lt (new_Date ct) (new_Date ot) then current else oldest).

(** Lines 37-53 on the text of one file: the oldest log when the file is to be
    deleted, [None] when it is to stay. *)
Definition expired `{Platform} (now : Z) (fileContent : string)
  : completion (option json) :=
  logs <- JSON_parse fileContent ;;
  let logArray := as_array logs in
  match logArray with
  | [] => Normal None
  | first :: rest =>
      oldestLog <- reduce older rest first ;;
      ts <- get oldestLog "timestamp" ;;
      let oldestTime := new_Date ts in
      if date_lt oldestTime (sevenDaysAgo now) then Normal (Some oldestLog)
      else Normal None
  end.

Record cleanup : Type := {
  cl_disk : filesystem;
  deletedCount : nat;
  deletedFiles : list string;
  cl_console : list log_line
}.

(** The body of [files.forEach] at lines 32-64, with its try/catch. *)
Definition cleanup_file `{Platform} (now : Z) (st : cleanup) (file : string)
  : cleanup :=
  if endsWith file ".json" then
    let filePath := path_join [logDir; file] in
    match
      (fileContent <- readFileSync (cl_disk st) filePath ;;
       verdict <- expired now fileContent ;;
       match verdict with
       | Some oldestLog =>
           disk' <- unlinkSync (cl_disk st) filePath ;;
           Normal {| cl_disk := disk';
                     deletedCount := S (deletedCount st);
                     deletedFiles := deletedFiles st ++ [file];
                     cl_console :=
                       cl_console st ++ [CleanupDeleted file oldestLog] |}
       | None => Normal st
       end)
    with
    | Normal st' => st'
    | Throw e =>
        {| cl_disk := cl_disk st;
           deletedCount := deletedCount st;
           deletedFiles := deletedFiles st;
           cl_console := cl_console st ++ [CleanupError file e] |}
    end
  else st.

Definition cleanupOldLogs `{Platform} (now : Z) (disk : filesystem)
  : cleanup :=
  let files := readdirSync disk logDir in
  let st := fold_left (cleanup_file now) files
              {| cl_disk := disk; deletedCount := 0;
                 deletedFiles := []; cl_console := [] |} in
  {| cl_disk := cl_disk st;
     deletedCount := deletedCount st;
     deletedFiles := deletedFiles st;
     cl_console := cl_console st ++ [CleanupComplete (deletedCount st)] |}.

Definition decimal (n : nat) : string := NilZero.string_of_uint (Nat.to_uint n).

(** The object [cleanupOldLogs] returns (lines 67-72). *)
Definition cleanup_summary (st : cleanup) : json :=
  JObj [("success", JBool true);
        ("deletedCount", JNum (Z.of_nat (deletedCount st)));
        ("deletedFiles", JArr (map JStr (deletedFiles st)));
        ("message", JStr ("Deleted " ++ decimal (deletedCount st) ++
                          " log files older than 7 days"))].

(* ------------------------------------------------------------------------- *)
(** ** loadLogsFromFiles                                                      *)
(* ------------------------------------------------------------------------- *)

(** The body of [files.forEach] at lines 90-107: what one file adds to
    [allLogs], or the error its try/catch logs. *)
Definition load_file `{Platform} (disk : filesystem)
  (st : list json * list log_line) (file : string)
  : list json * list log_line :=
  if endsWith file ".json" then
    let filePath := path_join [logDir; file] in
    match (fileContent <- readFileSync disk filePath ;;
           JSON_parse fileContent) with
    | Normal (JArr elems) => (fst st ++ elems, snd st)
    | Normal (JObj props) => (fst st ++ [JObj props], snd st)
    | Normal _ => st
    | Throw e => (fst st, snd st ++ [ReadError file e])
    end
  else st.

(** [(a, b) => new Date(b.timestamp) - new Date(a.timestamp)] *)
Definition newest_first `{Platform} (a b : json) : completion jsnum :=
  tb <- get b "timestamp" ;;
  ta <- get a "timestamp" ;;
  Normal (date_sub (new_Date tb) (new_Date ta)).

(** The new value of [allLogs] and the lines logged. *)
Definition loadLogsFromFiles `{Platform} (disk : filesystem)
  : list json * list log_line :=
  let files := readdirSync disk logDir in
  let loaded := fold_left (load_file disk) files ([], []) in
  match Array_sort newest_first (fst loaded) with
  | Normal sorted => (sorted, snd loaded)
  | Throw e => (fst loaded, snd loaded ++ [LoadError e])
  end.

(* ------------------------------------------------------------------------- *)
(** ** The request handler                                                    *)
(* ------------------------------------------------------------------------- *)

Record request : Type := {
  method : string;
  pathname : string;   (* [url.parse(req.url).pathname] *)
  body : string        (* the chunks of the request, concatenated *)
}.

Record response : Type := {
  status : nat;
  payload : string
}.

(** The module's state: the log directory's file system and [allLogs]. *)
Record server : Type := {
  disk : filesystem;
  allLogs : list json;
  console : list log_line
}.

(** [res.writeHead(status, ...); res.end(JSON.stringify(value))] *)
Definition reply `{Platform} (code : nat) (value : json) : response :=
  {| status := code; payload := JSON_stringify value 0 |}.

Definition failure (text : string) : json := JObj [("error", JStr text)].

(** [parseBody]: [body ? JSON.parse(body) : {}] *)
Definition parseBody `{Platform} (text : string) : completion json :=
  if text =? "" then Normal (JObj []) else JSON_parse text.

(** [a.timestamp || 0] *)
Definition or_zero (v : option json) : option json :=
  if ToBoolean v then v else Some (JNum 0).

(** The comparator of lines 271-275 and 357-361. *)
Definition newest_first_or_epoch `{Platform} (a b : json) : completion jsnum :=
  ta <- get a "timestamp" ;;
  let aTime := new_Date (or_zero ta) in
  tb <- get b "timestamp" ;;
  let bTime := new_Date (or_zero tb) in
  Normal (date_sub bTime aTime).

(** GET /api/logs/list *)
Definition list_logs `{Platform} (s : server) : response :=
  let files := readdirSync (disk s) logDir in
  let logFiles := filter (fun f => endsWith f ".json") files in
  reply 200 (JObj [("success", JBool true);
                   ("count", JNum (Z.of_nat (List.length logFiles)));
                   ("files", JArr (map JStr logFiles))]).

(** GET /api/logs/:fileName, lines 211-230. *)
Definition get_log `{Platform} (fileName : string) (s : server)
  : completion response :=
  let sanitizedFileName := sanitize fileName in
  let filePath := path_join [logDir; (sanitizedFileName ++ ".json")%string] in
  if negb (startsWith filePath logDir) then
    Normal (reply 403 (failure "Access denied"))
  else if negb (existsSync (disk s) filePath) then
    Normal (reply 404 (failure "Log file not found"))
  else
    fileContent <- readFileSync (disk s) filePath ;;
    Normal {| status := 200; payload := fileContent |}.

(** [dataToSave], lines 254-261. *)
Definition data_to_save `{Platform} (logData : json) : json :=
  match logData with
  | JStr text =>
      match JSON_parse text with
      | Normal v => v
      | Throw _ => JObj [("raw", JStr text)]
      end
  | _ => logData
  end.

(** POST /api/logs/save, lines 236-287.  The state a throw leaves behind is
    the state reached when it happens. *)
Definition save_log `{Platform} (now : Z) (text : string) (s : server)
  : server * completion response :=
  match (b <- parseBody text ;;
         logData <- get b "logData" ;;
         fileName <- get b "fileName" ;;
         Normal (logData, fileName)) with
  | Throw e => (s, Throw e)
  | Normal (logData, fileName) =>
      match logData, ToBoolean logData with
      | Some logData, true =>
          match fileName, ToBoolean fileName with
          | Some (JStr fileName), true =>
              let sanitizedFileName := sanitize fileName in
              let filePath :=
                path_join [logDir; (sanitizedFileName ++ ".json")%string] in
              let dataToSave := data_to_save logData in
              match writeFileSync (disk s) filePath
                      (JSON_stringify dataToSave 2) with
              | Throw e => (s, Throw e)
              | Normal disk' =>
                  let pushed := allLogs s ++ as_array dataToSave in
                  match Array_sort newest_first_or_epoch pushed with
                  | Throw e =>
                      ({| disk := disk'; allLogs := pushed;
                          console := console s |}, Throw e)
                  | Normal sorted =>
                      let swept := cleanupOldLogs now disk' in
                      ({| disk := cl_disk swept; allLogs := sorted;
                          console := console s ++ cl_console swept |},
                       Normal (reply 200
                         (JObj [("success", JBool true);
                                ("message", JStr "Log saved successfully");
                                ("filePath", JStr filePath);
                                ("fileName",
                                 JStr (sanitizedFileName ++ ".json"))])))
                  end
              end
          | Some _, true =>
              (* fileName.replace is not a function *)
              (s, Throw TypeError)
          | _, _ => (s, Normal (reply 400 (failure "fileName is required")))
          end
      | _, _ => (s, Normal (reply 400 (failure "logData is required")))
      end
  end.

(** DELETE /api/logs/:fileName, lines 292-317. *)
Definition delete_log `{Platform} (fileName : string) (s : server)
  : server * completion response :=
  let sanitizedFileName := sanitize fileName in
  let filePath := path_join [logDir; (sanitizedFileName ++ ".json")%string] in
  if negb (startsWith filePath logDir) then
    (s, Normal (reply 403 (failure "Access denied")))
  else if negb (existsSync (disk s) filePath) then
    (s, Normal (reply 404 (failure "Log file not found")))
  else
    match unlinkSync (disk s) filePath with
    | Throw e => (s, Throw e)
    | Normal disk' =>
        let loaded := loadLogsFromFiles disk' in
        ({| disk := disk'; allLogs := fst loaded;
            console := console s ++ snd loaded |},
         Normal (reply 200
           (JObj [("success", JBool true);
                  ("message", JStr "Log file deleted successfully")])))
    end.

(** POST /api/logs/cleanup, lines 321-328. *)
Definition manual_cleanup `{Platform} (now : Z) (s : server)
  : server * response :=
  let cleanupResult := cleanupOldLogs now (disk s) in
  let loaded := loadLogsFromFiles (cl_disk cleanupResult) in
  ({| disk := cl_disk cleanupResult; allLogs := fst loaded;
      console := console s ++ [ManualCleanup] ++ cl_console cleanupResult ++
                 snd loaded |},
   reply 200 (cleanup_summary cleanupResult)).

(** [Date.now()] in a template string. *)
Definition decimalZ (z : Z) : string := NilZero.string_of_int (Z.to_int z).

(** POST /api/logs/upload, lines 333-385, with its own try/catch. *)
Definition upload_logs `{Platform} (now : Z) (text : string) (s : server)
  : server * completion response :=
  match (b <- parseBody text ;; get b "logsData") with
  | Throw e => (s, Throw e)
  | Normal logsData =>
      match logsData, ToBoolean logsData with
      | Some logsData, true =>
          let logsArray := as_array logsData in
          if (List.length logsArray =? 0)%nat then
            (s, Normal (reply 400 (failure "No valid logs found in data")))
          else
            let pushed := allLogs s ++ logsArray in
            let oops (s' : server) (e : error) :=
              (s', Normal (reply 500
                     (JObj [("error", JStr "Error processing logs");
                            ("details", JStr (message e))]))) in
            match Array_sort newest_first_or_epoch pushed with
            | Throw e =>
                oops {| disk := disk s; allLogs := pushed;
                        console := console s |} e
            | Normal sorted =>
                let s' := {| disk := disk s; allLogs := sorted;
                             console := console s |} in
                let uploadFileName := ("uploaded_" ++ decimalZ now)%string in
                let sanitizedFileName := sanitize uploadFileName in
                let filePath :=
                  path_join [logDir; (sanitizedFileName ++ ".json")%string] in
                match writeFileSync (disk s) filePath
                        (JSON_stringify (JArr logsArray) 2) with
                | Throw e => oops s' e
                | Normal disk' =>
                    ({| disk := disk'; allLogs := sorted;
                        console := console s |},
                     Normal (reply 200
                       (JObj [("success", JBool true);
                              ("message",
                               JStr ("Successfully uploaded " ++
                                     decimal (List.length logsArray) ++
                                     " logs"));
                              ("count",
                               JNum (Z.of_nat (List.length logsArray)));
                              ("fileName",
                               JStr (sanitizedFileName ++ ".json"))])))
                end
            end
      | _, _ => (s, Normal (reply 400 (failure "logsData is required")))
      end
  end.

(** [serveStaticFile] *)
Definition serveStaticFile `{Platform} (filePath : string) (s : server)
  : response :=
  match readFileSync (disk s) filePath with
  | Throw _ => reply 404 (failure "File not found")
  | Normal data => {| status := 200; payload := data |}
  end.

(** The routes of the [try] block, lines 186-402, in the order of the source. *)
Definition dispatch `{Platform} (now : Z) (req : request) (s : server)
  : server * completion response :=
  let m := method req in
  let p := pathname req in
  let reading :=
    if m =? "GET" then
      match strip_prefix "/api/logs/" p with
      | Some fileName =>
          if negb (fileName =? "") && negb (fileName =? "list")
          then Some fileName else None
      | None => None
      end
    else None in
  let deleting :=
    if m =? "DELETE" then strip_prefix "/api/logs/" p else None in
  if (m =? "GET") && (p =? "/api/logs") then
    (s, Normal (reply 200 (JArr (allLogs s))))
  else if (m =? "GET") && (p =? "/api/logs/list") then
    (s, Normal (list_logs s))
  else match reading with
  | Some fileName => (s, get_log fileName s)
  | None =>
  if (m =? "POST") && (p =? "/api/logs/save") then save_log now (body req) s
  else match deleting with
  | Some fileName => delete_log fileName s
  | None =>
  if (m =? "POST") && (p =? "/api/logs/cleanup") then
    let r := manual_cleanup now s in (fst r, Normal (snd r))
  else if (m =? "POST") && (p =? "/api/logs/upload") then
    upload_logs now (body req) s
  else if p =? "/" then
    (s, Normal (serveStaticFile (path_join [__dirname; "index.html"]) s))
  else if endsWith p ".html" || endsWith p ".css" || endsWith p ".js" then
    (s, Normal (serveStaticFile (path_join [__dirname; p]) s))
  else (s, Normal (reply 404 (failure "Not found")))
  end end.

(** The callback of [http.createServer]: one request, run to completion. *)
Definition handle `{Platform} (now : Z) (req : request) (s : server)
  : server * response :=
  if method req =? "OPTIONS" then (s, {| status := 200; payload := "" |})
  else
    match dispatch now req s with
    | (s', Normal r) => (s', r)
    | (s', Throw e) =>
        ({| disk := disk s'; allLogs := allLogs s';
            console := console s' ++ [ServerError e] |},
         reply 500 (JObj [("error", JStr "Internal server error");
                          ("details", JStr (message e))]))
    end.

(** Module load, lines 118-119: [loadLogsFromFiles(); cleanupOldLogs();] *)
Definition startup `{Platform} (now : Z) (disk0 : filesystem) : server :=
  let loaded := loadLogsFromFiles disk0 in
  let swept := cleanupOldLogs now disk0 in
  {| disk := cl_disk swept; allLogs := fst loaded;
     console := snd loaded ++ cl_console swept |}.

(** The 24-hour timer, lines 122-126. *)
Definition scheduled `{Platform} (now : Z) (s : server) : server :=
  let swept := cleanupOldLogs now (disk s) in
  let loaded := loadLogsFromFiles (cl_disk swept) in
  {| disk := cl_disk swept; allLogs := fst loaded;
     console := console s ++ [SchedulerTick] ++ cl_console swept ++
                snd loaded |}.

(* ------------------------------------------------------------------------- *)
(** ** An engine that computes                                                *)
(* ------------------------------------------------------------------------- *)

(** JSON text and ISO dates for the values the examples use: integers, strings
    of printable characters with the short escapes, objects without repeated
    keys, UTC timestamps [YYYY-MM-DDTHH:MM:SS(.mmm)Z] and dates [YYYY-MM-DD].
    Text outside that is a SyntaxError or an Invalid Date here. *)
Module Node.

Local Open Scope string_scope.

Definition quote : ascii := "034"%char.
Definition backslash : ascii := "092"%char.
Definition newline : ascii := "010"%char.
Definition tab : ascii := "009"%char.
Definition creturn : ascii := "013"%char.

Definition number_text (n : Z) : string := NilZero.string_of_int (Z.to_int n).

Fixpoint escape (s : string) : string :=
  match s with
  | EmptyString => EmptyString
  | String c s' =>
      if Ascii.eqb c quote then String backslash (String quote (escape s'))
      else if Ascii.eqb c backslash then
        String backslash (String backslash (escape s'))
      else if Ascii.eqb c newline then String backslash (String "n" (escape s'))
      else if Ascii.eqb c tab then String backslash (String "t" (escape s'))
      else if Ascii.eqb c creturn then String backslash (String "r" (escape s'))
      else String c (escape s')
  end.

Definition quoted (s : string) : string :=
  String quote (escape s ++ String quote EmptyString).

Fixpoint spaces (n : nat) : string :=
  match n with O => EmptyString | S n' => String " " (spaces n') end.

(** An opening bracket, the items and the closing bracket, at nesting [depth]
    with [space] spaces of indentation per level. *)
Definition bracketed (space depth : nat) (opening closing : string)
  (items : list string) : string :=
  match items, space with
  | [], _ => opening ++ closing
  | _, O => opening ++ String.concat "," items ++ closing
  | _, _ =>
      let inner := String newline (spaces (space * S depth)) in
      opening ++ inner ++ String.concat ("," ++ inner) items ++
      String newline (spaces (space * depth)) ++ closing
  end.

Fixpoint stringify_at (space depth : nat) (v : json) : string :=
  match v with
  | JNull => "null"
  | JBool true => "true"
  | JBool false => "false"
  | JNum n => number_text n
  | JStr s => quoted s
  | JArr elems =>
      bracketed space depth "[" "]" (map (stringify_at space (S depth)) elems)
  | JObj props =>
      bracketed space depth "{" "}"
        (map (fun p => quoted (fst p) ++
                       (if (space =? 0)%nat then ":" else ": ") ++
                       stringify_at space (S depth) (snd p)) props)
  end.

Definition stringify (v : json) (space : nat) : string :=
  stringify_at space 0 v.

Definition is_space (c : ascii) : bool :=
  Ascii.eqb c " " || Ascii.eqb c newline || Ascii.eqb c tab ||
  Ascii.eqb c creturn.

Fixpoint skip_ws (s : string) : string :=
  match s with
  | String c s' => if is_space c then skip_ws s' else s
  | EmptyString => EmptyString
  end.

Definition digit (c : ascii) : option Z :=
  let n := code c in
  if ((48 <=? n) && (n <=? 57))%nat then Some (Z.of_nat (n - 48)) else None.

Fixpoint digits (acc : Z) (s : string) : Z * string :=
  match s with
  | String c s' =>
      match digit c with
      | Some d => digits (10 * acc + d) s'
      | None => (acc, s)
      end
  | EmptyString => (acc, s)
  end.

(** After the digits of an integer nothing of a fraction or exponent may
    follow. *)
Definition integer_end (s : string) : bool :=
  match s with
  | String c _ => negb (Ascii.eqb c "." || Ascii.eqb c "e" || Ascii.eqb c "E")
  | EmptyString => true
  end.

Definition natural (s : string) : option (Z * string) :=
  match s with
  | String c s' =>
      match digit c with
      | Some 0%Z => if integer_end s' then
                      match s' with
                      | String c' _ =>
                          match digit c' with
                          | Some _ => None
                          | None => Some (0%Z, s')
                          end
                      | EmptyString => Some (0%Z, s')
                      end
                    else None
      | Some d => let r := digits d s' in
                  if integer_end (snd r) then Some r else None
      | None => None
      end
  | EmptyString => None
  end.

Definition number (s : string) : option (Z * string) :=
  match s with
  | String c s' =>
      if Ascii.eqb c "-" then
        match natural s' with
        | Some (n, r) => Some ((- n)%Z, r)
        | None => None
        end
      else natural s
  | EmptyString => None
  end.

Definition unescape (c : ascii) : option ascii :=
  if Ascii.eqb c quote then Some quote
  else if Ascii.eqb c backslash then Some backslash
  else if Ascii.eqb c "/" then Some "/"%char
  else if Ascii.eqb c "n" then Some newline
  else if Ascii.eqb c "t" then Some tab
  else if Ascii.eqb c "r" then Some creturn
  else None.

(** The characters of a string literal after its opening quote. *)
Fixpoint string_body (s : string) : option (string * string) :=
  match s with
  | EmptyString => None
  | String c s' =>
      if Ascii.eqb c quote then Some (EmptyString, s')
      else if Ascii.eqb c backslash then
        match s' with
        | String e s'' =>
            match unescape e, string_body s'' with
            | Some ch, Some (text, r) => Some (String ch text, r)
            | _, _ => None
            end
        | EmptyString => None
        end
      else if (code c <? 32)%nat then None
      else
        match string_body s' with
        | Some (text, r) => Some (String c text, r)
        | None => None
        end
  end.

Section Items.
Context {A : Type} (item : string -> option (A * string)) (closing : ascii).

(** Items separated by commas up to [closing]; [s] stands before an item. *)
Fixpoint items (fuel : nat) (s : string) : option (list A * string) :=
  match fuel with
  | O => None
  | S fuel' =>
      match item s with
      | None => None
      | Some (v, r) =>
          match skip_ws r with
          | String c r' =>
              if Ascii.eqb c "," then
                match items fuel' r' with
                | Some (vs, r'') => Some (v :: vs, r'')
                | None => None
                end
              else if Ascii.eqb c closing then Some ([v], r')
              else None
          | EmptyString => None
          end
      end
  end.

(** The inside of a bracket pair: nothing, or items. *)
Definition inside (fuel : nat) (s : string) : option (list A * string) :=
  match skip_ws s with
  | String c r => if Ascii.eqb c closing then Some ([], r) else items fuel s
  | EmptyString => None
  end.

End Items.

Fixpoint value (fuel : nat) (s : string) : option (json * string) :=
  match fuel with
  | O => None
  | S fuel' =>
      match skip_ws s with
      | EmptyString => None
      | String c r as t =>
          if Ascii.eqb c quote then
            match string_body r with
            | Some (text, r') => Some (JStr text, r')
            | None => None
            end
          else if Ascii.eqb c "[" then
            match inside (value fuel') "]" (String.length r) r with
            | Some (elems, r') => Some (JArr elems, r')
            | None => None
            end
          else if Ascii.eqb c "{" then
            let member (m : string) :=
              match skip_ws m with
              | String q m' =>
                  if Ascii.eqb q quote then
                    match string_body m' with
                    | Some (key, m'') =>
                        match skip_ws m'' with
                        | String colon m''' =>
                            if Ascii.eqb colon ":" then
                              match value fuel' m''' with
                              | Some (v, rest) => Some ((key, v), rest)
                              | None => None
                              end
                            else None
                        | EmptyString => None
                        end
                    | None => None
                    end
                  else None
              | EmptyString => None
              end in
            match inside member "}" (String.length r) r with
            | Some (props, r') => Some (JObj props, r')
            | None => None
            end
          else
            match strip_prefix "null" t, strip_prefix "true" t,
                  strip_prefix "false" t with
            | Some r', _, _ => Some (JNull, r')
            | _, Some r', _ => Some (JBool true, r')
            | _, _, Some r' => Some (JBool false, r')
            | _, _, _ =>
                match number t with
                | Some (n, r') => Some (JNum n, r')
                | None => None
                end
            end
      end
  end.

Definition parse (text : string) : completion json :=
  match value (S (String.length text)) text with
  | Some (v, rest) =>
      match skip_ws rest with
      | EmptyString => Normal v
      | String _ _ => Throw SyntaxError
      end
  | None => Throw SyntaxError
  end.

(** Exactly [n] decimal digits. *)
Fixpoint fixed_digits (n : nat) (acc : Z) (s : string) : option (Z * string) :=
  match n with
  | O => Some (acc, s)
  | S n' =>
      match s with
      | String c s' =>
          match digit c with
          | Some d => fixed_digits n' (10 * acc + d) s'
          | None => None
          end
      | EmptyString => None
      end
  end.

Definition expect (c : ascii) (s : string) : option string :=
  match s with
  | String d s' => if Ascii.eqb c d then Some s' else None
  | EmptyString => None
  end.

Definition leap (y : Z) : bool :=
  ((y mod 4 =? 0) && (negb (y mod 100 =? 0) || (y mod 400 =? 0)))%Z.

Definition days_in_month (y m : Z) : Z :=
  if (m =? 2)%Z then (if leap y then 29 else 28)%Z
  else if ((m =? 4) || (m =? 6) || (m =? 9) || (m =? 11))%Z then 30%Z
  else 31%Z.

(** Days from 1970-01-01 to the civil date [y]-[m]-[d]. *)
Definition days_from_civil (y m d : Z) : Z :=
  let y' := (if m <=? 2 then y - 1 else y)%Z in
  let era := (y' / 400)%Z in
  let yoe := (y' - era * 400)%Z in
  let mp := (if m <=? 2 then m + 9 else m - 3)%Z in
  let doy := ((153 * mp + 2) / 5 + d - 1)%Z in
  let doe := (yoe * 365 + yoe / 4 - yoe / 100 + doy)%Z in
  (era * 146097 + doe - 719468)%Z.

Definition option_bind {A B : Type} (o : option A) (k : A -> option B)
  : option B :=
  match o with Some a => k a | None => None end.

Definition iso_time (s : string) : option Z :=
  option_bind (fixed_digits 4 0 s) (fun '(y, s) =>
  option_bind (expect "-" s) (fun s =>
  option_bind (fixed_digits 2 0 s) (fun '(mo, s) =>
  option_bind (expect "-" s) (fun s =>
  option_bind (fixed_digits 2 0 s) (fun '(d, s) =>
  if ((1 <=? mo) && (mo <=? 12) && (1 <=? d) && (d <=? days_in_month y mo))%Z
  then
    let day := (days_from_civil y mo d * 86400000)%Z in
    match s with
    | EmptyString => Some day
    | _ =>
        option_bind (expect "T" s) (fun s =>
        option_bind (fixed_digits 2 0 s) (fun '(hh, s) =>
        option_bind (expect ":" s) (fun s =>
        option_bind (fixed_digits 2 0 s) (fun '(mm, s) =>
        option_bind (expect ":" s) (fun s =>
        option_bind (fixed_digits 2 0 s) (fun '(ss, s) =>
        option_bind (match expect "." s with
                     | Some s' => fixed_digits 3 0 s'
                     | None => Some (0%Z, s)
                     end) (fun '(ms, s) =>
        if ((hh <=? 23) && (mm <=? 59) && (ss <=? 59))%Z
           && (s =? "Z")
        then Some (day + hh * 3600000 + mm * 60000 + ss * 1000 + ms)%Z
        else None)))))))
    end
  else None))))).

Definition date_parse (s : string) : jsdate :=
  match iso_time s with
  | Some t => Time t
  | None => InvalidDate
  end.

(** [String(v)]: Array.prototype.join for arrays, the object tag for
    objects. *)
Fixpoint to_string (v : json) : string :=
  match v with
  | JNull => "null"
  | JBool true => "true"
  | JBool false => "false"
  | JNum n => number_text n
  | JStr s => s
  | JArr elems =>
      String.concat ","
        (map (fun e => match e with JNull => EmptyString | _ => to_string e end)
             elems)
  | JObj _ => "[object Object]"
  end.

Definition error_message (e : error) : string :=
  match e with
  | SyntaxError => "Unexpected token in JSON"
  | TypeError => "Cannot read properties of null"
  | ENOENT => "ENOENT: no such file or directory"
  | EISDIR => "EISDIR: illegal operation on a directory"
  | EPERM => "EPERM: operation not permitted"
  end.

#[export] Instance platform : Platform := {
  JSON_parse := parse;
  JSON_stringify := stringify;
  Date_parse := date_parse;
  ToString := to_string;
  message := error_message;
  __dirname := "/srv/logreader"
}.

End Node.

(* ------------------------------------------------------------------------- *)
(** ** Notions the statements use                                             *)
(* ------------------------------------------------------------------------- *)

(** A path segment that normalizeString keeps as it is. *)
Definition ordinary (seg : string) : bool :=
  negb (seg =? "") && negb (seg =? ".") && negb (seg =? "..").

(** The shape of a result of normalizeString, last segment first: ordinary
    segments, above leading [..] segments when those are allowed. *)
Fixpoint normal_stack (allowAboveRoot : bool) (res : list string) : Prop :=
  match res with
  | [] => True
  | top :: rest =>
      normal_stack allowAboveRoot rest /\
      (ordinary top = true \/
       (top = ".." /\ allowAboveRoot = true /\
        match rest with [] => True | below :: _ => below = ".." end))
  end.

(** A directory path as path.join returns it: a root or not, and at least one
    segment. *)
Definition canonical (dir : string) : Prop :=
  exists (absolute : bool) (res : list string),
    normal_stack (negb absolute) res /\
    Forall (fun seg => has_slash seg = false) res /\
    res <> [] /\
    startsWith dir "/" = absolute /\
    dir = ((if absolute then "/" else "") ++
           String.concat "/" (rev res))%string.

(** The instant an entry carries, when its timestamp reads as a valid date. *)
Definition time_of `{Platform} (entry : json) : option Z :=
  match get entry "timestamp" with
  | Normal ts =>
      match new_Date ts with
      | Time t => Some t
      | InvalidDate => None
      end
  | Throw _ => None
  end.

(** The instants of the entries whose timestamp reads as a valid date. *)
Definition valid_times `{Platform} (entries : list json) : list Z :=
  flat_map (fun entry => match time_of entry with
                         | Some t => [t]
                         | None => []
                         end) entries.

(** The minimum of a list of instants, when there is one. *)
Definition minimum_of (times : list Z) : option Z :=
  match times with
  | [] => None
  | t :: ts => Some (fold_left Z.min ts t)
  end.

(** The retention rule on what [path] holds on [disk]: an entry of the log
    directory named [*.json], a file that may be removed, with a text on
    which lines 37-53 reach [unlinkSync]. *)
Definition doomed `{Platform} (now : Z) (disk : filesystem) (path : string)
  : bool :=
  match child_of logDir path with
  | Some name =>
      endsWith name ".json" &&
      match assoc path disk with
      | Some (File content false) =>
          match expired now content with
          | Normal (Some _) => true
          | _ => false
          end
      | _ => false
      end
  | None => false
  end.

(** The try block of lines 35-59 run for [file] on [disk]: the exception it
    ends with, or the oldest log when it deletes the file. *)
Definition attempt `{Platform} (now : Z) (disk : filesystem) (file : string)
  : completion (option json) :=
  let filePath := path_join [logDir; file] in
  fileContent <- readFileSync disk filePath ;;
  verdict <- expired now fileContent ;;
  match verdict with
  | Some oldestLog => _ <- unlinkSync disk filePath ;; Normal (Some oldestLog)
  | None => Normal None
  end.

(** The entries [loadLogsFromFiles] takes from one file: the elements of an
    array, a single object, nothing from other values or from a file that
    cannot be read or parsed. *)
Definition file_entries `{Platform} (disk : filesystem) (file : string)
  : list json :=
  if endsWith file ".json" then
    match (fileContent <- readFileSync disk (path_join [logDir; file]) ;;
           JSON_parse fileContent) with
    | Normal (JArr elems) => elems
    | Normal (JObj props) => [JObj props]
    | _ => []
    end
  else [].

(** The entries of all log files on disk, file by file in enumeration
    order. *)
Definition stored_entries `{Platform} (disk : filesystem) : list json :=
  flat_map (file_entries disk) (readdirSync disk logDir).

(** [a] is at least as recent as [b]. *)
Definition newer_or_equal `{Platform} (a b : json) : Prop :=
  exists ta tb, time_of a = Some ta /\ time_of b = Some tb /\ (tb <= ta)%Z.

(** The entry carries the instant [t]. *)
Definition at_time `{Platform} (t : Z) (entry : json) : bool :=
  match time_of entry with
  | Some t' => (t' =? t)%Z
  | None => false
  end.

(** The key [Array.prototype.sort] sees through [newest_first] on an entry
    with a valid date. *)
Definition time_key `{Platform} (entry : json) : Z :=
  match time_of entry with Some t => t | None => 0%Z end.

(** A handler's outcome from state [s] that is no 403 and has left every path
    outside the log directory as it was. *)
Definition contained `{Platform} (s : server)
  (outcome : server * completion response) : Prop :=
  (forall r, snd outcome = Normal r -> status r <> 403) /\
  (forall path, child_of logDir path = None ->
                assoc path (disk (fst outcome)) = assoc path (disk s)).

(** The requests of the log API. *)
Definition POST_save (text : string) : request :=
  {| method := "POST"; pathname := "/api/logs/save"; body := text |}.

Definition GET_log (fileName : string) : request :=
  {| method := "GET"; pathname := "/api/logs/" ++ fileName; body := "" |}.

Definition DELETE_log (fileName : string) : request :=
  {| method := "DELETE"; pathname := "/api/logs/" ++ fileName; body := "" |}.

Definition GET_logs : request :=
  {| method := "GET"; pathname := "/api/logs"; body := "" |}.

Definition POST_cleanup : request :=
  {| method := "POST"; pathname := "/api/logs/cleanup"; body := "" |}.

(** Concrete logs, files and requests on the engine [Node]. *)
Module Sample.

Import Node.

(** 2025-01-15T00:00:00Z *)
Definition jan15 : Z := 1736899200000.

Definition entry (timestamp : string) : json :=
  JObj [("timestamp", JStr timestamp); ("userName", JStr "u");
        ("companyId", JStr "c"); ("event", JStr "e");
        ("details", JStr "d"); ("level", JStr "info")].

(** A log file of the log directory holding [logs]. *)
Definition log_file (name : string) (logs : json) : string * node :=
  ((logDir ++ "/" ++ name)%string, File (stringify logs 2) false).

Definition save (logData : json) (fileName : string) : request :=
  POST_save (stringify (JObj [("logData", logData);
                              ("fileName", JStr fileName)]) 0).

Definition fresh : server := {| disk := []; allLogs := []; console := [] |}.

(** The two files of the retention boundary, a file with an old and a recent
    entry, and an empty one. *)
Definition boundary_disk : filesystem :=
  [log_file "old.json" (JArr [entry "2025-01-07T23:59:59Z"]);
   log_file "recent.json" (JArr [entry "2025-01-08T00:00:01Z"]);
   log_file "mixed.json"
     (JArr [entry "2025-01-14T00:00:00Z"; entry "2025-01-01T00:00:00Z"]);
   log_file "empty.json" (JArr [])].

(** The same two entries in both orders, one of them with a timestamp that
    does not parse. *)
Definition unparseable_disk : filesystem :=
  [log_file "a.json"
     (JArr [entry "not-a-date"; entry "2025-01-01T00:00:00Z"]);
   log_file "b.json"
     (JArr [entry "2025-01-01T00:00:00Z"; entry "not-a-date"])].

(** A malformed file, a directory, an immutable old file and an old file with
    a null entry among two ordinary ones. *)
Definition faulty_disk : filesystem :=
  [((logDir ++ "/broken.json")%string, File "{ not json" false);
   log_file "old.json" (JArr [entry "2025-01-01T00:00:00Z"]);
   ((logDir ++ "/dir.json")%string, Dir);
   ((logDir ++ "/locked.json")%string,
    File (stringify (JArr [entry "2025-01-01T00:00:00Z"]) 2) true);
   log_file "nulls.json" (JArr [JNull; entry "2025-01-01T00:00:00Z"]);
   log_file "recent.json" (JArr [entry "2025-01-14T00:00:00Z"])].

(** A file with a null entry before two entries in ascending order, and one
    with an unparseable timestamp between them. *)
Definition null_disk : filesystem :=
  [log_file "n.json"
     (JArr [JNull; entry "2025-01-10T00:00:00Z";
            entry "2025-01-12T00:00:00Z"])].

Definition garbled_disk : filesystem :=
  [log_file "g.json"
     (JArr [entry "2025-01-10T00:00:00Z"; entry "not-a-date";
            entry "2025-01-12T00:00:00Z"])].

(** Files with entries at equal instants. *)
Definition tied_disk : filesystem :=
  [log_file "x.json"
     (JArr [JObj [("timestamp", JStr "2025-01-10T00:00:00Z"); ("n", JNum 1)];
            JObj [("timestamp", JStr "2025-01-12T00:00:00Z"); ("n", JNum 2)]]);
   log_file "y.json"
     (JObj [("timestamp", JStr "2025-01-10T00:00:00Z"); ("n", JNum 3)]);
   log_file "z.json"
     (JArr [JObj [("timestamp", JStr "2025-01-12T00:00:00Z"); ("n", JNum 4)];
            JObj [("timestamp", JStr "2025-01-10T00:00:00Z"); ("n", JNum 5)]])].

End Sample.

(* ------------------------------------------------------------------------- *)
(** ** Notions of the further properties                                      *)
(* ------------------------------------------------------------------------- *)



(** The requests of the upload route. *)
Definition POST_upload (text : string) : request :=
  {| method := "POST"; pathname := "/api/logs/upload"; body := text |}.

(** The characters of a string. *)
Fixpoint chars (s : string) : list ascii :=
  match s with
  | EmptyString => []
  | String c s' => c :: chars s'
  end.

Definition GET_list : request :=
  {| method := "GET"; pathname := "/api/logs/list"; body := "" |}.

(** What the load of one file ends with: the parsed text, or the exception
    of the read or of [JSON.parse] (lines 93-95). *)
Definition read_logs `{Platform} (disk : filesystem) (file : string)
  : completion json :=
  fileContent <- readFileSync disk (path_join [logDir; file]) ;;
  JSON_parse fileContent.

(** Requests and servers of the examples that follow. *)
Module Further.

Import Node Sample.

Definition upload (logsData : json) : request :=
  POST_upload (stringify (JObj [("logsData", logsData)]) 0).


(** A server on the disk [d] with an empty index. *)
Definition serving (d : filesystem) : server :=
  {| disk := d; allLogs := []; console := [] |}.

End Further.

(* ------------------------------------------------------------------------- *)
(** * Properties                                                              *)
(* ------------------------------------------------------------------------- *)

(** ** Strings *)

Lemma append_nil_r (s : string) : (s ++ "")%string = s.
Proof. induction s; simpl; congruence. Qed.

Lemma append_assoc (a b c : string) :
  ((a ++ b) ++ c)%string = (a ++ (b ++ c))%string.
Proof. induction a; simpl; congruence. Qed.

Lemma strip_prefix_app (p s : string) : strip_prefix p (p ++ s) = Some s.
Proof.
  induction p as [|c p IH]; simpl; [reflexivity|].
  now rewrite Ascii.eqb_refl.
Qed.

Lemma strip_prefix_inv (p s r : string) :
  strip_prefix p s = Some r -> s = (p ++ r)%string.
Proof.
  revert s; induction p as [|c p IH]; simpl; intros s Hs.
  - congruence.
  - destruct s as [|d s]; [discriminate|].
    destruct (Ascii.eqb_spec c d) as [->|]; [|discriminate].
    f_equal; auto.
Qed.

Lemma startsWith_app (p s : string) : startsWith (p ++ s) p = true.
Proof. unfold startsWith. now rewrite strip_prefix_app. Qed.

Lemma endsWith_app (a suffix : string) : endsWith (a ++ suffix) suffix = true.
Proof.
  induction a as [|c a IH]; simpl.
  - cbn [append]. destruct suffix; cbn [endsWith]; now rewrite String.eqb_refl.
  - cbn [append endsWith]. rewrite IH. apply orb_true_r.
Qed.

Lemma endsWith_slash_app (a name : string) :
  name <> EmptyString -> has_slash name = false ->
  endsWith (a ++ name) "/" = false.
Proof.
  intros Hne Hns.
  assert (Hn : forall n, n <> EmptyString -> has_slash n = false ->
                         endsWith n "/" = false).
  { induction n as [|c n IHn]; intros H1 H2; [congruence|].
    simpl in H2. apply orb_false_iff in H2 as [Hc Hn].
    cbn [endsWith]. apply orb_false_iff. split.
    - apply String.eqb_neq. intros E. injection E as -> _.
      discriminate.
    - destruct n as [|d n]; [reflexivity|].
      apply IHn; [discriminate|assumption]. }
  induction a as [|c a IH]; [now apply Hn|].
  cbn [append endsWith]. apply orb_false_iff. split; [|assumption].
  apply String.eqb_neq. intros E. injection E as _ E.
  destruct a; [|discriminate]. simpl in E. congruence.
Qed.

(** ** Paths *)

Lemma split_slash_nonempty (s : string) : split_slash s <> [].
Proof.
  destruct s as [|c s]; simpl; [discriminate|].
  destruct (Ascii.eqb c "/"); [discriminate|].
  destruct (split_slash s); discriminate.
Qed.

Lemma split_slash_app (a b : string) :
  split_slash (a ++ String "/" b) = split_slash a ++ split_slash b.
Proof.
  induction a as [|c a IH]; [reflexivity|].
  cbn [append split_slash]. rewrite IH.
  destruct (Ascii.eqb c "/"); [reflexivity|].
  pose proof (split_slash_nonempty a).
  destruct (split_slash a); [congruence|reflexivity].
Qed.

Lemma split_slash_segment (s : string) :
  has_slash s = false -> split_slash s = [s].
Proof.
  induction s as [|c s IH]; [reflexivity|].
  simpl. intros H. apply orb_false_iff in H as [-> H].
  now rewrite (IH H).
Qed.

Lemma split_slash_free (s : string) :
  Forall (fun seg => has_slash seg = false) (split_slash s).
Proof.
  induction s as [|c s IH]; simpl; [now repeat constructor|].
  destruct (Ascii.eqb c "/") eqn:E; [now constructor|].
  destruct (split_slash s) as [|seg segs].
  - constructor; [simpl; now rewrite E|constructor].
  - inversion IH; subst. constructor; [|assumption].
    simpl. now rewrite E.
Qed.

Lemma split_slash_concat (segs : list string) :
  segs <> [] -> Forall (fun seg => has_slash seg = false) segs ->
  split_slash (String.concat "/" segs) = segs.
Proof.
  induction segs as [|x segs IH]; [congruence|].
  intros _ H. inversion H as [|? ? Hx Hsegs]; subst.
  destruct segs as [|y segs].
  - simpl. now apply split_slash_segment.
  - change (String.concat "/" (x :: y :: segs))
      with (x ++ String "/" (String.concat "/" (y :: segs)))%string.
    rewrite split_slash_app, (split_slash_segment x Hx), IH;
      [reflexivity|discriminate|assumption].
Qed.

Lemma concat_snoc (segs : list string) (x : string) :
  segs <> [] ->
  String.concat "/" (segs ++ [x]) =
  (String.concat "/" segs ++ String "/" x)%string.
Proof.
  induction segs as [|y segs IH]; [congruence|]. intros _.
  destruct segs as [|z segs].
  - reflexivity.
  - change (String.concat "/" ((y :: z :: segs) ++ [x]))
      with (y ++ String "/" (String.concat "/" ((z :: segs) ++ [x])))%string.
    rewrite IH by discriminate.
    change (String.concat "/" (y :: z :: segs))
      with (y ++ String "/" (String.concat "/" (z :: segs)))%string.
    now rewrite append_assoc.
Qed.

Lemma concat_snoc_nonempty (segs : list string) (x : string) :
  x <> EmptyString -> String.concat "/" (segs ++ [x]) <> EmptyString.
Proof.
  intros Hx. destruct segs as [|y segs]; [assumption|].
  rewrite concat_snoc by discriminate.
  destruct (String.concat "/" (y :: segs)); discriminate.
Qed.

Lemma startsWith_slash_app (s t : string) :
  s <> EmptyString -> startsWith (s ++ t) "/" = startsWith s "/".
Proof.
  destruct s as [|c s]; [congruence|]. intros _.
  unfold startsWith. cbn [append strip_prefix].
  destruct (Ascii.eqb "/" c); reflexivity.
Qed.

Lemma startsWith_slash_concat (seg : string) (segs : list string) :
  seg <> EmptyString -> has_slash seg = false ->
  startsWith (String.concat "/" (seg :: segs)) "/" = false.
Proof.
  intros Hne Hns.
  assert (H : forall t, startsWith (seg ++ t) "/" = false).
  { destruct seg as [|c seg]; [congruence|]. intros t.
    simpl in Hns. apply orb_false_iff in Hns as [Hc _].
    unfold startsWith. cbn [append strip_prefix].
    rewrite Ascii.eqb_sym in Hc. now rewrite Hc. }
  destruct segs as [|y segs].
  - simpl. rewrite <- (append_nil_r seg). apply H.
  - apply H.
Qed.

Lemma ordinary_nonempty (seg : string) :
  ordinary seg = true -> seg <> EmptyString.
Proof. intros H ->. discriminate. Qed.

Lemma norm_step_ordinary (allow : bool) (res : list string) (seg : string) :
  ordinary seg = true -> norm_step allow res seg = seg :: res.
Proof.
  unfold ordinary, norm_step. intros H.
  apply andb_true_iff in H as [H H3]. apply andb_true_iff in H as [H1 H2].
  apply negb_true_iff in H1, H2, H3. now rewrite H1, H2, H3.
Qed.

Lemma norm_step_normal (allow : bool) (res : list string) (seg : string) :
  normal_stack allow res -> normal_stack allow (norm_step allow res seg).
Proof.
  intros Hres. unfold norm_step.
  destruct ((seg =? "") || (seg =? "."))%bool eqn:Hskip; [assumption|].
  apply orb_false_iff in Hskip as [H1 H2].
  destruct (seg =? "..") eqn:Hup.
  - destruct res as [|top rest].
    + destruct allow; simpl; auto.
    + destruct (String.eqb_spec top "..") as [->|Hne].
      * destruct allow; [|assumption]. simpl. split; [exact Hres|].
        right. auto.
      * simpl in Hres. tauto.
  - simpl. split; [assumption|]. left. unfold ordinary.
    now rewrite H1, H2, Hup.
Qed.

Lemma fold_norm_step_normal (allow : bool) (segs res : list string) :
  normal_stack allow res ->
  normal_stack allow (fold_left (norm_step allow) segs res).
Proof.
  revert res. induction segs as [|seg segs IH]; intros res H; [assumption|].
  simpl. apply IH. now apply norm_step_normal.
Qed.

Lemma norm_step_free (allow : bool) (res : list string) (seg : string) :
  Forall (fun s => has_slash s = false) res -> has_slash seg = false ->
  Forall (fun s => has_slash s = false) (norm_step allow res seg).
Proof.
  intros Hres Hseg. unfold norm_step.
  destruct ((seg =? "") || (seg =? "."))%bool; [assumption|].
  destruct (seg =? "..").
  - destruct res as [|top rest].
    + destruct allow; repeat constructor.
    + inversion Hres; subst.
      destruct (top =? ".."); [destruct allow|]; auto.
  - now constructor.
Qed.

Lemma fold_norm_step_free (allow : bool) (segs res : list string) :
  Forall (fun s => has_slash s = false) res ->
  Forall (fun s => has_slash s = false) segs ->
  Forall (fun s => has_slash s = false) (fold_left (norm_step allow) segs res).
Proof.
  revert res. induction segs as [|seg segs IH]; intros res Hres Hsegs;
    [assumption|].
  inversion Hsegs; subst. simpl. apply IH; [|assumption].
  now apply norm_step_free.
Qed.

(** Normalizing a normalized path changes nothing. *)
Lemma fold_norm_step_rev (allow : bool) (res : list string) :
  normal_stack allow res -> fold_left (norm_step allow) (rev res) [] = res.
Proof.
  induction res as [|top rest IH]; [reflexivity|].
  intros [Hrest Htop]. simpl. rewrite fold_left_app, (IH Hrest). simpl.
  destruct Htop as [Hord | (-> & -> & Hbelow)].
  - now apply norm_step_ordinary.
  - destruct rest as [|below rest]; [reflexivity|]. now subst.
Qed.

Lemma normal_stack_nonempty (allow : bool) (res : list string) :
  normal_stack allow res -> Forall (fun seg => seg <> EmptyString) res.
Proof.
  induction res as [|top rest IH]; [constructor|].
  intros [Hrest Htop]. constructor; [|auto].
  destruct Htop as [H | (-> & _)]; [now apply ordinary_nonempty|discriminate].
Qed.

Lemma dirent_ordinary (name : string) :
  dirent name = true -> ordinary name = true /\ has_slash name = false.
Proof.
  unfold dirent, ordinary. intros H.
  apply andb_true_iff in H as [H Hs]. rewrite H.
  now apply negb_true_iff in Hs.
Qed.

(** [path.join(dir, name)] of a normalized directory and an entry name. *)
Lemma path_join_canonical (dir name : string) :
  canonical dir -> ordinary name = true -> has_slash name = false ->
  path_join [dir; name] = (dir ++ String "/" name)%string.
Proof.
  intros (absolute & res & Hnormal & Hfree & Hres & Habs & Hdir) Hord Hns.
  pose proof (ordinary_nonempty _ Hord) as Hname.
  assert (Hrev : rev res <> []).
  { intros E. apply Hres. rewrite <- (rev_involutive res), E. reflexivity. }
  assert (Hne : dir <> EmptyString).
  { intros E. rewrite E in Hdir. destruct absolute; [discriminate|].
    simpl in Hdir. destruct res as [|top rest]; [congruence|].
    simpl in Hdir. symmetry in Hdir.
    revert Hdir. apply concat_snoc_nonempty.
    pose proof (normal_stack_nonempty _ _ Hnormal) as Hn.
    now inversion Hn. }
  unfold path_join. simpl filter.
  destruct (String.eqb_spec dir "") as [|_]; [congruence|].
  destruct (String.eqb_spec name "") as [|_]; [congruence|].
  cbn [negb String.concat append].
  unfold normalize.
  destruct (String.eqb_spec (dir ++ String "/" name) "") as [E|_].
  { destruct dir; discriminate. }
  rewrite (startsWith_slash_app dir _ Hne), Habs.
  replace (endsWith (dir ++ String "/" name) "/") with false.
  2:{ symmetry.
      change (dir ++ String "/" name)%string
        with (dir ++ (String "/" EmptyString ++ name))%string.
      rewrite <- append_assoc. now apply endsWith_slash_app. }
  assert (Hsplit : fold_left (norm_step (negb absolute)) (split_slash dir) []
                   = res).
  { rewrite Hdir. destruct absolute; cbn [append split_slash Ascii.eqb].
    - change (Ascii.eqb "/" "/") with true. cbn iota.
      rewrite split_slash_concat by (auto using Forall_rev).
      simpl. now apply fold_norm_step_rev.
    - rewrite split_slash_concat by (auto using Forall_rev).
      now apply fold_norm_step_rev. }
  unfold normalizeString.
  rewrite split_slash_app, (split_slash_segment name Hns), fold_left_app.
  rewrite Hsplit.
  simpl fold_left. rewrite (norm_step_ordinary _ _ _ Hord).
  simpl rev. rewrite (concat_snoc _ _ Hrev).
  destruct (String.eqb_spec (String.concat "/" (rev res) ++ String "/" name) "")
    as [E|_].
  { destruct (String.concat "/" (rev res)); discriminate. }
  rewrite append_nil_r, Hdir.
  destruct absolute; simpl; now rewrite ?append_assoc.
Qed.

Lemma logDir_canonical `{Platform} : canonical logDir.
Proof.
  unfold logDir, path_join. cbn [filter].
  change ("log" =? "") with false. cbn [negb].
  destruct (String.eqb_spec __dirname "") as [E|Hne]; cbn [negb].
  - exists false, ["log"].
    split; [split; [exact I|now left]|].
    split; [repeat constructor|].
    split; [discriminate|]. split; reflexivity.
  - cbn [String.concat append]. unfold normalize.
    set (dir := __dirname) in *.
    destruct (String.eqb_spec (dir ++ String "/" "log") "") as [E|_].
    { destruct dir; discriminate. }
    rewrite (startsWith_slash_app dir _ Hne).
    set (absolute := startsWith dir "/").
    replace (endsWith (dir ++ String "/" "log") "/") with false.
    2:{ symmetry.
        change (dir ++ String "/" "log")%string
          with (dir ++ (String "/" EmptyString ++ "log"))%string.
        rewrite <- append_assoc. now apply endsWith_slash_app. }
    unfold normalizeString.
    rewrite split_slash_app, fold_left_app.
    set (res := fold_left (norm_step (negb absolute)) (split_slash dir) []).
    change (fold_left (norm_step (negb absolute)) (split_slash "log") res)
      with ("log" :: res).
    assert (Hnormal : normal_stack (negb absolute) ("log" :: res)).
    { split; [|now left]. now apply fold_norm_step_normal. }
    assert (Hfree : Forall (fun s => has_slash s = false) ("log" :: res)).
    { constructor; [reflexivity|].
      apply fold_norm_step_free; [constructor|apply split_slash_free]. }
    simpl rev.
    destruct (String.eqb_spec (String.concat "/" (rev res ++ ["log"])) "")
      as [E|_].
    { now apply concat_snoc_nonempty in E. }
    rewrite append_nil_r.
    exists absolute, ("log" :: res).
    split; [exact Hnormal|]. split; [exact Hfree|].
    split; [discriminate|]. split; [|reflexivity].
    clearbody res absolute.
    destruct absolute; [reflexivity|]. cbn [append].
    pose proof (normal_stack_nonempty _ _ Hnormal) as Hn.
    apply Forall_rev in Hn, Hfree. simpl rev in Hn, Hfree.
    destruct (rev res ++ ["log"]) as [|seg segs] eqn:E.
    { now destruct (rev res). }
    inversion Hn; inversion Hfree; subst.
    now apply startsWith_slash_concat.
Qed.

Lemma logDir_join `{Platform} (name : string) :
  dirent name = true ->
  path_join [logDir; name] = (logDir ++ String "/" name)%string.
Proof.
  intros H0. apply dirent_ordinary in H0 as [Hord Hns].
  apply path_join_canonical; auto using logDir_canonical.
Qed.

Lemma string_length_app (a b : string) :
  String.length (a ++ b) = String.length a + String.length b.
Proof. induction a; simpl; congruence. Qed.

Lemma has_slash_app (a b : string) :
  has_slash (a ++ b) = has_slash a || has_slash b.
Proof.
  induction a as [|c a IH]; [reflexivity|].
  cbn [append has_slash]. now rewrite IH, orb_assoc.
Qed.

Lemma sanitize_no_slash (fileName : string) :
  has_slash (sanitize fileName) = false.
Proof.
  induction fileName as [|c s IH]; [reflexivity|].
  cbn [sanitize has_slash]. rewrite IH, orb_false_r.
  destruct (word_char c) eqn:Hc; [|reflexivity].
  destruct (Ascii.eqb_spec c "/") as [->|]; [|reflexivity].
  discriminate.
Qed.

(** A sanitized name with its suffix is a name a directory can list. *)
Lemma sanitized_dirent (fileName : string) :
  dirent (sanitize fileName ++ ".json") = true.
Proof.
  unfold dirent.
  assert (Hlen : 5 <= String.length (sanitize fileName ++ ".json")).
  { rewrite string_length_app. simpl. lia. }
  rewrite has_slash_app, sanitize_no_slash.
  destruct (String.eqb_spec (sanitize fileName ++ ".json") "") as [E|_];
    [rewrite E in Hlen; simpl in Hlen; lia|].
  destruct (String.eqb_spec (sanitize fileName ++ ".json") ".") as [E|_];
    [rewrite E in Hlen; simpl in Hlen; lia|].
  destruct (String.eqb_spec (sanitize fileName ++ ".json") "..") as [E|_];
    [rewrite E in Hlen; simpl in Hlen; lia|].
  reflexivity.
Qed.

Lemma child_of_join (dir name : string) :
  dirent name = true -> child_of dir (dir ++ String "/" name) = Some name.
Proof.
  intros Hd. unfold child_of.
  change (dir ++ String "/" name)%string
    with (dir ++ (String "/" EmptyString ++ name))%string.
  now rewrite <- append_assoc, strip_prefix_app, Hd.
Qed.

Lemma child_of_inv (dir path name : string) :
  child_of dir path = Some name ->
  path = (dir ++ String "/" name)%string /\ dirent name = true.
Proof.
  unfold child_of. intros Hc.
  destruct (strip_prefix (dir ++ "/") path) as [n|] eqn:Hs; [|discriminate].
  destruct (dirent n) eqn:Hd; [|discriminate].
  injection Hc as <-. split; [|assumption].
  apply strip_prefix_inv in Hs. now rewrite append_assoc in Hs.
Qed.

Lemma readdirSync_dirent (disk : filesystem) (dir : string) :
  Forall (fun name => dirent name = true) (readdirSync disk dir).
Proof.
  unfold readdirSync. apply Forall_forall. intros name Hin.
  apply in_flat_map in Hin as (e & _ & Hin).
  destruct (child_of dir (fst e)) as [n|] eqn:Hc; [|contradiction].
  destruct Hin as [<-|[]]. now apply child_of_inv in Hc.
Qed.

Lemma readdirSync_In (disk : filesystem) (dir path name : string) (n : node) :
  In (path, n) disk -> child_of dir path = Some name ->
  In name (readdirSync disk dir).
Proof.
  intros Hin Hc. unfold readdirSync. apply in_flat_map.
  exists (path, n). split; [assumption|]. simpl. rewrite Hc. now left.
Qed.

(** ** The file system *)

Lemma assoc_filter (keep : string -> bool) (path : string) (fs : filesystem) :
  assoc path (filter (fun e => keep (fst e)) fs) =
  if keep path then assoc path fs else None.
Proof.
  induction fs as [|[q n] fs IH]; simpl.
  - now destruct (keep path).
  - destruct (keep q) eqn:Hq; simpl;
      destruct (String.eqb_spec q path) as [->|Hne]; try assumption.
    + now rewrite Hq.
    + rewrite IH, Hq. reflexivity.
Qed.

Lemma assoc_remove (path q : string) (fs : filesystem) :
  assoc q (remove path fs) = if q =? path then None else assoc q fs.
Proof.
  unfold remove.
  rewrite (assoc_filter (fun k => negb (k =? path)) q fs).
  now destruct (q =? path).
Qed.

Lemma assoc_put (path q : string) (n : node) (fs : filesystem) :
  assoc q (put path n fs) =
  if q =? path then match assoc path fs with Some _ => Some n | None => None end
  else assoc q fs.
Proof.
  unfold put. induction fs as [|[k m] fs IH]; simpl.
  - now destruct (q =? path).
  - destruct (String.eqb_spec k path) as [->|Hk]; simpl.
    + destruct (String.eqb_spec path q) as [->|Hq].
      * now rewrite String.eqb_refl.
      * rewrite IH. destruct (String.eqb_spec q path); [congruence|reflexivity].
    + destruct (String.eqb_spec k q) as [->|Hq].
      * destruct (String.eqb_spec q path); [congruence|reflexivity].
      * apply IH.
Qed.

Lemma assoc_app {A : Type} (key : string) (l1 l2 : list (string * A)) :
  assoc key (l1 ++ l2) =
  match assoc key l1 with Some v => Some v | None => assoc key l2 end.
Proof.
  induction l1 as [|[k v] l1 IH]; simpl; [reflexivity|].
  now destruct (k =? key).
Qed.

(** ** The retention sweep *)

Lemma doomed_assoc `{Platform} (now : Z) (d1 d2 : filesystem) (path : string) :
  assoc path d1 = assoc path d2 -> doomed now d1 path = doomed now d2 path.
Proof. unfold doomed. now intros ->. Qed.

Lemma attempt_assoc `{Platform} (now : Z) (d1 d2 : filesystem) (file : string) :
  assoc (path_join [logDir; file]) d1 = assoc (path_join [logDir; file]) d2 ->
  attempt now d1 file = attempt now d2 file.
Proof.
  unfold attempt, readFileSync, unlinkSync. intros ->.
  destruct (assoc (path_join [logDir; file]) d2) as [[content [|]|]|];
    try reflexivity;
    simpl; destruct (expired now content) as [[o|]|e]; reflexivity.
Qed.

Lemma attempt_throw_stays `{Platform} (now : Z) (disk : filesystem)
  (file : string) (e : error) :
  dirent file = true -> attempt now disk file = Throw e ->
  doomed now disk (logDir ++ String "/" file) = false.
Proof.
  intros Hd. unfold attempt, doomed, readFileSync, unlinkSync.
  rewrite (logDir_join _ Hd), (child_of_join _ _ Hd).
  destruct (endsWith file ".json"); [|reflexivity].
  destruct (assoc (logDir ++ String "/" file) disk) as [[content [|]|]|];
    try reflexivity.
  simpl. destruct (expired now content) as [[o|]|e']; simpl;
    try reflexivity; discriminate.
Qed.

(** One iteration of the loop: what it does to the disk and to the console. *)
Lemma cleanup_file_spec `{Platform} (now : Z) (st : cleanup) (file : string) :
  dirent file = true ->
  cl_disk (cleanup_file now st file) =
    (if doomed now (cl_disk st) (logDir ++ String "/" file)
     then remove (logDir ++ String "/" file) (cl_disk st)
     else cl_disk st) /\
  (forall line, In line (cl_console st) ->
                In line (cl_console (cleanup_file now st file))) /\
  (forall e, endsWith file ".json" = true ->
             attempt now (cl_disk st) file = Throw e ->
             In (CleanupError file e) (cl_console (cleanup_file now st file))).
Proof.
  intros Hd. unfold cleanup_file, attempt, doomed, readFileSync, unlinkSync.
  rewrite (logDir_join _ Hd), (child_of_join _ _ Hd).
  destruct (endsWith file ".json"); [|repeat split; auto; discriminate].
  destruct (assoc (logDir ++ String "/" file) (cl_disk st))
    as [[content [|]|]|]; simpl;
    try destruct (expired now content) as [[o|]|e']; simpl;
    repeat split; auto with datatypes; try discriminate;
    intros e _ [= <-]; auto with datatypes.
Qed.

Lemma filter_filter {A : Type} (f g : A -> bool) (l : list A) :
  filter f (filter g l) = filter (fun x => g x && f x) l.
Proof.
  induction l as [|x l IH]; [reflexivity|].
  simpl. destruct (g x); simpl; [destruct (f x)|]; now rewrite IH.
Qed.

(** The state after the loop has run over [files]: the doomed files among
    them are gone, the exceptions are on the console. *)
Lemma cleanup_fold `{Platform} (now : Z) (disk : filesystem)
  (files : list string) :
  Forall (fun name => dirent name = true) files ->
  let st := fold_left (cleanup_file now) files
              {| cl_disk := disk; deletedCount := 0;
                 deletedFiles := []; cl_console := [] |} in
  cl_disk st =
    filter (fun e => negb (doomed now disk (fst e) &&
                           existsb (String.eqb (fst e))
                             (map (fun name => logDir ++ String "/" name)%string
                                  files))) disk /\
  (forall file e, In file files -> endsWith file ".json" = true ->
                  attempt now disk file = Throw e ->
                  In (CleanupError file e) (cl_console st)).
Proof.
  induction files as [|file files IH] using rev_ind; intros Hd st.
  - subst st. simpl. split; [|contradiction].
    symmetry. rewrite <- (filter_ext (fun _ => true)).
    + induction disk; simpl; congruence.
    + intros e. now rewrite andb_false_r.
  - apply Forall_app in Hd as [Hfiles Hfile].
    inversion Hfile as [|? ? Hdirent _]; subst.
    specialize (IH Hfiles). cbv zeta in IH. destruct IH as [IHdisk IHlog].
    subst st. rewrite fold_left_app. cbn [fold_left].
    set (st := fold_left (cleanup_file now) files _) in *.
    set (path := (logDir ++ String "/" file)%string).
    destruct (cleanup_file_spec now st file Hdirent) as (Hdisk & Hmono & Hlog).
    fold path in Hdisk.
    set (seen := map (fun name => logDir ++ String "/" name)%string files)
      in *.
    assert (Hassoc : assoc path (cl_disk st) =
                     if doomed now disk path && existsb (String.eqb path) seen
                     then None else assoc path disk).
    { rewrite IHdisk.
      rewrite (assoc_filter
                 (fun p => negb (doomed now disk p &&
                                 existsb (String.eqb p) seen)) path disk).
      now destruct (doomed now disk path && existsb (String.eqb path) seen). }
    split.
    + rewrite Hdisk, map_app. fold seen. cbn [map]. fold path.
      destruct (doomed now disk path) eqn:Hdoomed;
        [destruct (existsb (String.eqb path) seen) eqn:Hseen|];
        cbn [andb] in Hassoc.
      * replace (doomed now (cl_disk st) path) with false.
        2:{ unfold doomed. rewrite Hassoc.
            destruct (child_of logDir path); [|reflexivity].
            now rewrite andb_false_r. }
        rewrite IHdisk. apply filter_ext. intros [q n]. cbn [fst].
        rewrite existsb_app. cbn [existsb]. rewrite orb_false_r.
        destruct (String.eqb_spec q path) as [->|_];
          [now rewrite Hdoomed, Hseen|now rewrite orb_false_r].
      * rewrite (doomed_assoc now _ _ _ Hassoc), Hdoomed, IHdisk.
        unfold remove. rewrite filter_filter. apply filter_ext.
        intros [q n]. cbn [fst]. rewrite existsb_app. cbn [existsb].
        rewrite orb_false_r.
        destruct (String.eqb_spec q path) as [->|_].
        -- now rewrite Hdoomed, Hseen.
        -- now rewrite orb_false_r, andb_true_r.
      * rewrite (doomed_assoc now _ _ _ Hassoc), Hdoomed, IHdisk.
        apply filter_ext. intros [q n]. cbn [fst].
        rewrite existsb_app. cbn [existsb]. rewrite orb_false_r.
        destruct (String.eqb_spec q path) as [->|_];
          [now rewrite Hdoomed|now rewrite orb_false_r].
    + intros name e Hin Hjson Hthrow.
      apply in_app_or in Hin as [Hin|[<-|[]]].
      * apply Hmono. eauto.
      * apply Hlog; [assumption|].
        rewrite <- Hthrow. apply attempt_assoc.
        rewrite (logDir_join _ Hdirent). fold path. rewrite Hassoc.
        unfold path. now rewrite (attempt_throw_stays now disk file e).
Qed.

(** What a sweep leaves on the disk: every file but the doomed ones, each as
    it was. *)
Lemma cleanup_disk `{Platform} (now : Z) (disk : filesystem) :
  cl_disk (cleanupOldLogs now disk) =
  filter (fun e => negb (doomed now disk (fst e))) disk.
Proof.
  unfold cleanupOldLogs. cbn [cl_disk].
  destruct (cleanup_fold now disk (readdirSync disk logDir)
              (readdirSync_dirent disk logDir)) as [-> _].
  apply filter_ext_in. intros [path n] Hin. cbn [fst].
  destruct (doomed now disk path) eqn:Hdoomed; [|reflexivity].
  cbn [andb]. f_equal. apply existsb_exists.
  unfold doomed in Hdoomed.
  destruct (child_of logDir path) as [name|] eqn:Hc; [|discriminate].
  exists path. split; [|apply String.eqb_refl].
  apply in_map_iff. exists name. split.
  - now apply child_of_inv in Hc as [-> _].
  - eapply readdirSync_In; eauto.
Qed.

Lemma assoc_cleanup `{Platform} (now : Z) (disk : filesystem) (path : string) :
  assoc path (cl_disk (cleanupOldLogs now disk)) =
  if doomed now disk path then None else assoc path disk.
Proof.
  rewrite cleanup_disk.
  rewrite (assoc_filter (fun p => negb (doomed now disk p)) path disk).
  now destruct (doomed now disk path).
Qed.

Lemma cleanup_logs_errors `{Platform} (now : Z) (disk : filesystem)
  (file : string) (e : error) :
  In file (readdirSync disk logDir) -> endsWith file ".json" = true ->
  attempt now disk file = Throw e ->
  In (CleanupError file e) (cl_console (cleanupOldLogs now disk)).
Proof.
  intros Hin Hjson Hthrow. unfold cleanupOldLogs. cbn [cl_console].
  apply in_or_app. left.
  now apply (cleanup_fold now disk (readdirSync disk logDir)
               (readdirSync_dirent disk logDir)).
Qed.

(** ** The oldest log of a file *)

Lemma time_of_get `{Platform} (entry : json) (t : Z) :
  time_of entry = Some t ->
  exists ts, get entry "timestamp" = Normal ts /\ new_Date ts = Time t.
Proof.
  unfold time_of. destruct (get entry "timestamp") as [ts|]; [|discriminate].
  destruct (new_Date ts) eqn:E; [discriminate|].
  intros [= <-]. eauto.
Qed.

Lemma sevenDaysAgo_valid (now : Z) :
  (0 <= now <= 8640000000000000)%Z ->
  sevenDaysAgo now = Time (now - 7 * 24 * 60 * 60 * 1000).
Proof.
  intros Hnow. unfold sevenDaysAgo, TimeClip.
  destruct (Z.leb_spec (Z.abs (now - 7 * 24 * 60 * 60 * 1000))
              8640000000000000); [reflexivity|lia].
Qed.

(** A file whose first entry carries no valid date is never deleted. *)
Lemma expired_first_invalid `{Platform} (now : Z) (content : string)
  (logs first : json) (rest : list json) :
  JSON_parse content = Normal logs ->
  as_array logs = first :: rest ->
  time_of first = None ->
  forall oldestLog, expired now content <> Normal (Some oldestLog).
Proof.
  intros Hparse Harray Hfirst oldestLog. unfold expired.
  rewrite Hparse. cbn [bind]. cbv zeta. rewrite Harray.
  assert (Hreduce : forall l, reduce older l first = Normal first \/
                              exists e, reduce older l first = Throw e).
  { induction l as [|current l IHl]; [now left|].
    cbn [reduce]. unfold older at 1 3.
    destruct (get current "timestamp") as [vc|e];
      [|right; cbn [bind]; eauto].
    destruct (get first "timestamp") as [vf|e] eqn:Hget;
      [|right; cbn [bind]; eauto].
    cbn [bind].
    replace (date_lt (new_Date vc) (new_Date vf)) with false; [exact IHl|].
    unfold time_of in Hfirst. rewrite Hget in Hfirst.
    destruct (new_Date vf); [|discriminate].
    now destruct (new_Date vc). }
  destruct (Hreduce rest) as [-> | [e ->]]; [|discriminate].
  cbn [bind]. unfold time_of in Hfirst.
  destruct (get first "timestamp") as [vf|e]; [|discriminate].
  cbn [bind]. destruct (new_Date vf); [|discriminate].
  discriminate.
Qed.

(** A deletion is always due to an entry with a valid date before the
    cutoff. *)
Lemma expired_has_old_entry `{Platform} (now : Z) (content : string)
  (oldestLog : json) :
  expired now content = Normal (Some oldestLog) ->
  exists logs t cutoff,
    JSON_parse content = Normal logs /\ In oldestLog (as_array logs) /\
    time_of oldestLog = Some t /\ sevenDaysAgo now = Time cutoff /\
    (t < cutoff)%Z.
Proof.
  unfold expired. destruct (JSON_parse content) as [logs|]; [|discriminate].
  cbn [bind]. cbv zeta.
  destruct (as_array logs) as [|first rest] eqn:Harray; [discriminate|].
  assert (Hin : forall l acc o, reduce older l acc = Normal o ->
                                o = acc \/ In o l).
  { induction l as [|current l IHl]; cbn [reduce]; intros acc o Ho.
    - left. congruence.
    - unfold older at 1 in Ho.
      destruct (get current "timestamp") as [vc|]; [|discriminate].
      destruct (get acc "timestamp") as [va|]; [|discriminate].
      cbn [bind] in Ho. apply IHl in Ho as [->|Ho]; [|right; now right].
      destruct (date_lt (new_Date vc) (new_Date va)); auto with datatypes. }
  destruct (reduce older rest first) as [o|] eqn:Hreduce; [|discriminate].
  cbn [bind]. destruct (get o "timestamp") as [v|] eqn:Hget; [|discriminate].
  cbn [bind].
  destruct (new_Date v) as [|t] eqn:Hdate; [discriminate|].
  destruct (sevenDaysAgo now) as [|cutoff] eqn:Hcut; [discriminate|].
  cbn [date_lt]. destruct (Z.ltb_spec t cutoff); [|discriminate].
  intros [= <-]. exists logs, t, cutoff.
  split; [reflexivity|]. split.
  { rewrite Harray. apply Hin in Hreduce as [->|Hreduce];
      [now left|now right]. }
  split; [|split; [reflexivity|assumption]].
  unfold time_of. now rewrite Hget, Hdate.
Qed.

(** ** Array.prototype.sort *)

Section SortFacts.
Context (comparefn : json -> json -> completion jsnum).

Lemma sort_insert_permutation (x : json) (sorted r : list json) :
  sort_insert comparefn x sorted = Normal r -> Permutation (x :: sorted) r.
Proof.
  revert r. induction sorted as [|y rest IH]; cbn [sort_insert]; intros r Hr.
  - injection Hr as <-. reflexivity.
  - destruct (comparefn x y) as [c|]; [|discriminate]. cbn [bind] in Hr.
    destruct (sort_order c <=? 0)%Z.
    + injection Hr as <-. reflexivity.
    + destruct (sort_insert comparefn x rest) as [r'|]; [|discriminate].
      injection Hr as <-. rewrite perm_swap. now rewrite (IH r').
Qed.

(** Whatever the comparator answers, a sort that returns has rearranged the
    array and nothing else. *)
Lemma Array_sort_permutation (a sorted : list json) :
  Array_sort comparefn a = Normal sorted -> Permutation a sorted.
Proof.
  revert sorted. induction a as [|x rest IH]; cbn [Array_sort]; intros s Hs.
  - injection Hs as <-. reflexivity.
  - destruct (Array_sort comparefn rest) as [s'|]; [|discriminate].
    cbn [bind] in Hs. apply sort_insert_permutation in Hs.
    now rewrite (IH s' eq_refl).
Qed.

(** A comparator that subtracts keys, [key b - key a], on the values that
    satisfy [dom]. *)
Context (key : json -> Z) (dom : json -> Prop).
Hypothesis comparefn_key :
  forall a b, dom a -> dom b -> comparefn a b = Normal (Num (key b - key a)).

Let descending (a b : json) : Prop := (key b <= key a)%Z.
Let keyed (t : Z) (e : json) : bool := (key e =? t)%Z.

Lemma sort_insert_stable (x : json) (sorted : list json) :
  dom x -> Forall dom sorted -> StronglySorted descending sorted ->
  exists r, sort_insert comparefn x sorted = Normal r /\
            Permutation (x :: sorted) r /\
            StronglySorted descending r /\
            forall t, filter (keyed t) r = filter (keyed t) (x :: sorted).
Proof.
  intros Hx. induction sorted as [|y rest IH]; intros Hdom Hsorted.
  - exists [x]. repeat split; auto. repeat constructor.
  - inversion Hdom as [|? ? Hy Hrest]; subst.
    inversion Hsorted as [|? ? Hsorted' Hbelow]; subst.
    cbn [sort_insert]. rewrite (comparefn_key x y Hx Hy). cbn [bind sort_order].
    destruct (Z.leb_spec (key y - key x) 0) as [Hle|Hgt].
    + exists (x :: y :: rest). repeat split; auto.
      constructor; [assumption|]. constructor; [unfold descending; lia|].
      eapply Forall_impl; [|exact Hbelow]. unfold descending. intros; lia.
    + destruct (IH Hrest Hsorted') as (r & -> & Hperm & Hr & Hfilter).
      exists (y :: r). cbn [bind]. split; [reflexivity|]. split.
      { rewrite perm_swap. now constructor. }
      split.
      { constructor; [assumption|].
        eapply Permutation_Forall; [exact Hperm|].
        constructor; [unfold descending; lia|assumption]. }
      intros t. cbn [filter]. rewrite (Hfilter t). cbn [filter].
      unfold keyed.
      destruct (Z.eqb_spec (key y) t), (Z.eqb_spec (key x) t);
        try reflexivity; lia.
Qed.

(** On such values the sort returns, in descending key order, and keeps the
    order of values with equal keys. *)
Lemma Array_sort_stable (a : list json) :
  Forall dom a ->
  exists sorted, Array_sort comparefn a = Normal sorted /\
                 Permutation a sorted /\
                 StronglySorted descending sorted /\
                 forall t, filter (keyed t) sorted = filter (keyed t) a.
Proof.
  induction a as [|x rest IH]; intros Hdom.
  - exists []. repeat split; auto. constructor.
  - inversion Hdom as [|? ? Hx Hrest]; subst.
    destruct (IH Hrest) as (s & Hs & Hperm & Hsorted & Hfilter).
    destruct (sort_insert_stable x s Hx) as (r & Hr & Hperm' & Hr' & Hfilter').
    { eapply Permutation_Forall; eauto. }
    { assumption. }
    exists r. cbn [Array_sort]. rewrite Hs. cbn [bind].
    split; [assumption|]. split.
    { rewrite <- Hperm'. now constructor. }
    split; [assumption|].
    intros t. rewrite (Hfilter' t). cbn [filter]. now rewrite (Hfilter t).
Qed.

End SortFacts.

(** ** loadLogsFromFiles *)

Lemma load_fold `{Platform} (disk : filesystem) (files : list string)
  (st : list json * list log_line) :
  fst (fold_left (load_file disk) files st) =
  fst st ++ flat_map (file_entries disk) files.
Proof.
  revert st. induction files as [|file files IH]; intros st.
  - simpl. now rewrite app_nil_r.
  - cbn [fold_left flat_map]. rewrite IH, app_assoc. f_equal.
    unfold load_file, file_entries.
    destruct (endsWith file ".json"); [|now rewrite app_nil_r].
    destruct (fileContent <- readFileSync disk (path_join [logDir; file]);;
              JSON_parse fileContent) as [[| | | | |]|];
      cbn [fst]; now rewrite ?app_nil_r.
Qed.

(** A rebuild returns the stored entries, sorted when the sort returns and
    as loaded when it throws. *)
Lemma loadLogsFromFiles_entries `{Platform} (disk : filesystem) :
  fst (loadLogsFromFiles disk) =
  match Array_sort newest_first (stored_entries disk) with
  | Normal sorted => sorted
  | Throw _ => stored_entries disk
  end.
Proof.
  unfold loadLogsFromFiles, stored_entries. cbv zeta.
  rewrite load_fold. cbn [fst app].
  now destruct (Array_sort newest_first _).
Qed.

Lemma loadLogsFromFiles_permutation `{Platform} (disk : filesystem) :
  Permutation (fst (loadLogsFromFiles disk)) (stored_entries disk).
Proof.
  rewrite loadLogsFromFiles_entries.
  destruct (Array_sort newest_first (stored_entries disk)) eqn:Hsort;
    [|reflexivity].
  symmetry. now apply (Array_sort_permutation newest_first).
Qed.

Lemma newest_first_key `{Platform} (a b : json) :
  (exists t, time_of a = Some t) -> (exists t, time_of b = Some t) ->
  newest_first a b = Normal (Num (time_key b - time_key a)).
Proof.
  intros [ta Ha] [tb Hb]. unfold newest_first, time_key.
  rewrite Ha, Hb.
  destruct (time_of_get _ _ Ha) as (va & -> & Hva).
  destruct (time_of_get _ _ Hb) as (vb & -> & Hvb).
  cbn [bind]. now rewrite Hva, Hvb.
Qed.

(** On non-null entries of which the first carries a valid date, [reduce]
    ends on an entry that carries the minimum of the valid dates: an entry
    whose timestamp does not parse never wins a comparison. *)
Lemma reduce_older_valid_minimum `{Platform} (rest : list json) :
  Forall (fun entry => entry <> JNull) rest ->
  forall (first : json) (t : Z),
    time_of first = Some t ->
    exists oldest, reduce older rest first = Normal oldest /\
                   time_of oldest = Some (fold_left Z.min (valid_times rest) t).
Proof.
  induction 1 as [|current rest Hcurrent _ IH]; intros first t Hfirst.
  - exists first. auto.
  - cbn [reduce valid_times flat_map]. fold (valid_times rest).
    destruct (time_of_get _ _ Hfirst) as (vf & Hgf & Hvf).
    assert (Hget : exists vc, get current "timestamp" = Normal vc).
    { destruct current; try (eexists; reflexivity). congruence. }
    destruct Hget as [vc Hgc].
    assert (Hc : time_of current =
                 match new_Date vc with
                 | Time tc => Some tc
                 | InvalidDate => None
                 end).
    { unfold time_of. now rewrite Hgc. }
    rewrite Hc. unfold older at 1. rewrite Hgc, Hgf. cbn [bind]. rewrite Hvf.
    destruct (new_Date vc) as [|tc]; cbn [date_lt app fold_left].
    + now apply IH.
    + destruct (Z.ltb_spec tc t) as [Hlt|Hge].
      * rewrite Z.min_r by lia. apply IH. now rewrite Hc.
      * rewrite Z.min_l by lia. now apply IH.
Qed.

Lemma expired_valid_minimum `{Platform} (now : Z) (content : string)
  (logs : json) :
  (0 <= now <= 8640000000000000)%Z ->
  JSON_parse content = Normal logs ->
  Forall (fun entry => entry <> JNull) (as_array logs) ->
  match as_array logs with
  | first :: _ => time_of first <> None
  | [] => True
  end ->
  match minimum_of (valid_times (as_array logs)) with
  | None => expired now content = Normal None
  | Some oldest =>
      if (oldest <? now - 7 * 24 * 60 * 60 * 1000)%Z
      then exists oldestLog, expired now content = Normal (Some oldestLog)
      else expired now content = Normal None
  end.
Proof.
  intros Hnow Hparse Hnonnull Hfirst. unfold expired. rewrite Hparse.
  cbn [bind]. cbv zeta.
  destruct (as_array logs) as [|first rest]; [reflexivity|].
  inversion Hnonnull as [|? ? _ Hrest]; subst.
  destruct (time_of first) as [t|] eqn:Ht; [|congruence].
  cbn [valid_times flat_map]. rewrite Ht. cbn [app minimum_of].
  fold (valid_times rest).
  destruct (reduce_older_valid_minimum rest Hrest first t Ht)
    as (oldest & -> & Holdest).
  destruct (time_of_get _ _ Holdest) as (v & Hget & Hv).
  cbn [bind]. rewrite Hget. cbn [bind].
  rewrite Hv, (sevenDaysAgo_valid now Hnow). cbn [date_lt].
  destruct (fold_left Z.min (valid_times rest) t
            <? now - 7 * 24 * 60 * 60 * 1000)%Z; eauto.
Qed.

Lemma doomed_log_file `{Platform} (now : Z) (disk : filesystem)
  (file content : string) :
  dirent file = true -> endsWith file ".json" = true ->
  assoc (path_join [logDir; file]) disk = Some (File content false) ->
  doomed now disk (path_join [logDir; file]) =
  match expired now content with Normal (Some _) => true | _ => false end.
Proof.
  intros Hd Hjson. rewrite (logDir_join _ Hd). intros Hassoc.
  unfold doomed. now rewrite (child_of_join _ _ Hd), Hjson, Hassoc.
Qed.

(* ------------------------------------------------------------------------- *)
(** ** C1: the sweep decides by the minimum timestamp                         *)
(* ------------------------------------------------------------------------- *)

(** C1, as amended.  A retention sweep at [now] deletes a log file in full
    exactly when the minimum timestamp across its entries is strictly earlier
    than [now] minus seven days, and otherwise leaves it as it is; a file with
    no entry is left as it is.  This holds for every file the sweep processes
    without an exception and whose first entry carries a valid date: [file]
    is an entry [*.json] of the log directory, a file that may be removed,
    its text parses to [logs] and no entry is null.  The minimum runs over
    the entries whose timestamp parses; the clock is a date from 1970 on. *)
Theorem cleanup_deletes_by_minimum_timestamp `{Platform} (now : Z)
  (disk : filesystem) (file content : string) (logs : json) :
  (0 <= now <= 8640000000000000)%Z ->
  dirent file = true ->
  endsWith file ".json" = true ->
  assoc (path_join [logDir; file]) disk = Some (File content false) ->
  JSON_parse content = Normal logs ->
  Forall (fun entry => entry <> JNull) (as_array logs) ->
  match as_array logs with
  | first :: _ => time_of first <> None
  | [] => True
  end ->
  let after :=
    assoc (path_join [logDir; file]) (cl_disk (cleanupOldLogs now disk)) in
  match minimum_of (valid_times (as_array logs)) with
  | None => as_array logs = [] /\ after = Some (File content false)
  | Some oldest =>
      (after = None <-> (oldest < now - 7 * 24 * 60 * 60 * 1000)%Z) /\
      (after = None \/ after = Some (File content false))
  end.
Proof.
  intros Hnow Hd Hjson Hassoc Hparse Hnonnull Hfirst after.
  subst after. rewrite assoc_cleanup.
  rewrite (doomed_log_file now disk file content Hd Hjson Hassoc).
  pose proof (expired_valid_minimum now content logs Hnow Hparse Hnonnull
                Hfirst) as Hexpired.
  destruct (minimum_of (valid_times (as_array logs))) as [oldest|] eqn:Hmin.
  - destruct (Z.ltb_spec oldest (now - 7 * 24 * 60 * 60 * 1000)) as [Hlt|Hge].
    + destruct Hexpired as [oldestLog ->]. split; [tauto|now left].
    + rewrite Hexpired, Hassoc. split; [|now right].
      split; [discriminate|lia].
  - rewrite Hexpired, Hassoc. split; [|reflexivity].
    destruct (as_array logs) as [|first rest]; [reflexivity|].
    exfalso. cbn [valid_times flat_map] in Hmin.
    destruct (time_of first); [discriminate|congruence].
Qed.

(* ------------------------------------------------------------------------- *)
(** ** C7: one file's failure stays with that file                            *)
(* ------------------------------------------------------------------------- *)

(** C7.  In a retention sweep every path keeps what it held unless the
    retention rule dooms it, whatever happens on the other files; the
    exception a file's processing ends with (malformed JSON, a read or a
    delete error) is caught and written to the console with the file's name;
    and the sweep itself always returns its summary, so POST
    /api/logs/cleanup answers 200 with [success: true] on any disk. *)
Theorem cleanup_isolates_file_failures `{Platform} (now : Z)
  (d : filesystem) :
  let swept := cleanupOldLogs now d in
  (forall path,
      assoc path (cl_disk swept) =
      if doomed now d path then None else assoc path d) /\
  (forall file e,
      In file (readdirSync d logDir) -> endsWith file ".json" = true ->
      attempt now d file = Throw e ->
      In (CleanupError file e) (cl_console swept) /\
      assoc (path_join [logDir; file]) (cl_disk swept) =
      assoc (path_join [logDir; file]) d) /\
  (forall s,
      exists count files text,
        snd (handle now POST_cleanup s) =
        reply 200 (JObj [("success", JBool true); ("deletedCount", count);
                         ("deletedFiles", files); ("message", text)])).
Proof.
  intros swept. subst swept. split; [|split].
  - apply assoc_cleanup.
  - intros file e Hin Hjson Hthrow. split.
    + now apply cleanup_logs_errors.
    + pose proof (readdirSync_dirent d logDir) as Hd.
      rewrite Forall_forall in Hd. specialize (Hd file Hin).
      rewrite assoc_cleanup, (logDir_join _ Hd).
      now rewrite (attempt_throw_stays now d file e Hd Hthrow).
  - intros s. do 3 eexists. reflexivity.
Qed.

(* ------------------------------------------------------------------------- *)
(** ** The handlers                                                           *)
(* ------------------------------------------------------------------------- *)

Lemma writeFileSync_spec (fs fs' : filesystem) (path data : string) :
  writeFileSync fs path data = Normal fs' ->
  assoc path fs' = Some (File data false) /\
  forall q, q <> path -> assoc q fs' = assoc q fs.
Proof.
  unfold writeFileSync.
  destruct (assoc path fs) as [[content [|]|]|] eqn:Hassoc;
    try discriminate; intros [= <-].
  - split.
    + now rewrite assoc_put, String.eqb_refl, Hassoc.
    + intros q Hq. rewrite assoc_put.
      now destruct (String.eqb_spec q path).
  - split.
    + rewrite assoc_app, Hassoc. simpl. now rewrite String.eqb_refl.
    + intros q Hq. rewrite assoc_app. destruct (assoc q fs); [reflexivity|].
      simpl. now destruct (String.eqb_spec path q); [congruence|].
Qed.

Lemma unlinkSync_spec (fs fs' : filesystem) (path : string) :
  unlinkSync fs path = Normal fs' -> fs' = remove path fs.
Proof.
  unfold unlinkSync.
  destruct (assoc path fs) as [[content [|]|]|]; try discriminate.
  now intros [= <-].
Qed.

(** The path every handler computes from a file name: an entry of the log
    directory under the sanitized name. *)
Lemma sanitized_path `{Platform} (fileName : string) :
  path_join [logDir; (sanitize fileName ++ ".json")%string] =
  (logDir ++ String "/" (sanitize fileName ++ ".json"))%string.
Proof. apply logDir_join, sanitized_dirent. Qed.

Lemma sanitized_path_startsWith `{Platform} (fileName : string) :
  startsWith (path_join [logDir; (sanitize fileName ++ ".json")%string])
    logDir = true.
Proof. rewrite sanitized_path. apply startsWith_app. Qed.

Lemma sanitized_path_child `{Platform} (fileName : string) :
  child_of logDir (path_join [logDir; (sanitize fileName ++ ".json")%string])
  = Some (sanitize fileName ++ ".json")%string.
Proof. rewrite sanitized_path. apply child_of_join, sanitized_dirent. Qed.

(** A path that is no entry of the log directory is not the path of a
    sanitized name. *)
Lemma outside_not_sanitized `{Platform} (path fileName : string) :
  child_of logDir path = None ->
  path <> path_join [logDir; (sanitize fileName ++ ".json")%string].
Proof.
  intros Hout ->. now rewrite sanitized_path_child in Hout.
Qed.

Lemma cleanup_outside `{Platform} (now : Z) (d : filesystem) (path : string) :
  child_of logDir path = None ->
  assoc path (cl_disk (cleanupOldLogs now d)) = assoc path d.
Proof.
  intros Hout. rewrite assoc_cleanup. unfold doomed. now rewrite Hout.
Qed.

(** Closes a case whose response has another status than the one assumed. *)
Ltac other_status :=
  cbn [snd fst status reply]; intros; solve [discriminate | congruence].

(** What a save that answers 200 has done. *)
Lemma save_log_success `{Platform} (now : Z) (text : string) (s : server) :
  status (snd (handle now (POST_save text) s)) = 200 ->
  exists b logData fileName written sorted,
    parseBody text = Normal b /\
    get b "logData" = Normal (Some logData) /\
    get b "fileName" = Normal (Some (JStr fileName)) /\
    writeFileSync (disk s)
      (path_join [logDir; (sanitize fileName ++ ".json")%string])
      (JSON_stringify (data_to_save logData) 2) = Normal written /\
    Array_sort newest_first_or_epoch
      (allLogs s ++ as_array (data_to_save logData)) = Normal sorted /\
    fileName <> EmptyString /\
    disk (fst (handle now (POST_save text) s)) =
      cl_disk (cleanupOldLogs now written) /\
    allLogs (fst (handle now (POST_save text) s)) = sorted.
Proof.
  change (handle now (POST_save text) s)
    with (match save_log now text s with
          | (s', Normal r) => (s', r)
          | (s', Throw e) =>
              ({| disk := disk s'; allLogs := allLogs s';
                  console := console s' ++ [ServerError e] |},
               reply 500 (JObj [("error", JStr "Internal server error");
                                ("details", JStr (message e))]))
          end).
  unfold save_log.
  destruct (parseBody text) as [b|] eqn:Hb; cbn [bind]; [|other_status].
  destruct (get b "logData") as [logData|] eqn:HlogData; cbn [bind];
    [|other_status].
  destruct (get b "fileName") as [fileName|] eqn:HfileName; cbn [bind];
    [|other_status].
  destruct logData as [logData|]; [|other_status].
  destruct (ToBoolean (Some logData)); [|other_status].
  destruct fileName as [[| | |fileName| |]|];
    try (destruct (ToBoolean _); other_status); try other_status.
  destruct (ToBoolean (Some (JStr fileName))) eqn:Hname; [|other_status].
  destruct (writeFileSync _ _ _) as [written|] eqn:Hwrite; [|other_status].
  destruct (Array_sort _ _) as [sorted|] eqn:Hsort; [|other_status].
  intros _. exists b, logData, fileName, written, sorted.
  repeat split; try (assumption || reflexivity).
  intros ->. discriminate.
Qed.

(* ------------------------------------------------------------------------- *)
(** ** C5: a save without logData or fileName                                 *)
(* ------------------------------------------------------------------------- *)

(** C5.  A POST /api/logs/save whose body (an object, or any other JSON value
    than null) has no [logData] or no [fileName] is answered 400 with an
    [error] body, and the server is left exactly as it was: no file, no
    index entry, no console line. *)
Theorem save_without_field_is_rejected `{Platform} (now : Z) (s : server)
  (text : string) (b : json) (logData fileName : option json) :
  parseBody text = Normal b ->
  get b "logData" = Normal logData ->
  get b "fileName" = Normal fileName ->
  logData = None \/ fileName = None ->
  exists reason,
    handle now (POST_save text) s = (s, reply 400 (failure reason)) /\
    status (reply 400 (failure reason)) = 400 /\
    (reason = "logData is required" \/ reason = "fileName is required").
Proof.
  intros Hb HlogData HfileName Hmissing.
  change (handle now (POST_save text) s)
    with (match save_log now text s with
          | (s', Normal r) => (s', r)
          | (s', Throw e) =>
              ({| disk := disk s'; allLogs := allLogs s';
                  console := console s' ++ [ServerError e] |},
               reply 500 (JObj [("error", JStr "Internal server error");
                                ("details", JStr (message e))]))
          end).
  unfold save_log. rewrite Hb. cbn [bind]. rewrite HlogData. cbn [bind].
  rewrite HfileName. cbn [bind].
  destruct logData as [logData|].
  - destruct Hmissing as [Hm|Hm]; [discriminate|]. subst fileName.
    destruct (ToBoolean (Some logData)); eauto.
  - eauto.
Qed.

Lemma handle_GET_log `{Platform} (now : Z) (fileName : string) (s : server) :
  fileName <> EmptyString -> fileName <> "list" ->
  handle now (GET_log fileName) s =
  match get_log fileName s with
  | Normal r => (s, r)
  | Throw e =>
      ({| disk := disk s; allLogs := allLogs s;
          console := console s ++ [ServerError e] |},
       reply 500 (JObj [("error", JStr "Internal server error");
                        ("details", JStr (message e))]))
  end.
Proof.
  intros Hempty Hlist. unfold handle, dispatch, GET_log.
  cbn [method pathname body String.eqb Ascii.eqb Bool.eqb andb negb
       strip_prefix append].
  apply String.eqb_neq in Hempty, Hlist. rewrite Hempty, Hlist.
  cbn [andb negb]. now destruct (get_log fileName s).
Qed.

Lemma handle_DELETE_log `{Platform} (now : Z) (fileName : string)
  (s : server) :
  handle now (DELETE_log fileName) s =
  match delete_log fileName s with
  | (s', Normal r) => (s', r)
  | (s', Throw e) =>
      ({| disk := disk s'; allLogs := allLogs s';
          console := console s' ++ [ServerError e] |},
       reply 500 (JObj [("error", JStr "Internal server error");
                        ("details", JStr (message e))]))
  end.
Proof.
  unfold handle, dispatch, DELETE_log.
  cbn [method pathname body String.eqb Ascii.eqb Bool.eqb andb negb
       strip_prefix append].
  reflexivity.
Qed.

(** *** No handler answers 403 or leaves the log directory *)

Lemma contained_unchanged `{Platform} (s : server) (r : response) :
  status r <> 403 -> contained s (s, Normal r).
Proof. intros Hr. split; [now intros ? [= <-]|reflexivity]. Qed.

Lemma contained_throw `{Platform} (s s' : server) (e : error) :
  disk s' = disk s -> contained s (s', Throw e).
Proof.
  intros Hd. split; [discriminate|]. intros. cbn [fst]. now rewrite Hd.
Qed.

Lemma get_log_contained `{Platform} (fileName : string) (s : server) :
  contained s (s, get_log fileName s).
Proof.
  unfold get_log. rewrite sanitized_path_startsWith. cbn [negb].
  destruct (existsSync _ _); cbn [negb].
  - destruct (readFileSync _ _); cbn [bind];
      [apply contained_unchanged; discriminate|now apply contained_throw].
  - apply contained_unchanged. discriminate.
Qed.

Lemma delete_log_contained `{Platform} (fileName : string) (s : server) :
  contained s (delete_log fileName s).
Proof.
  unfold delete_log. rewrite sanitized_path_startsWith. cbn [negb].
  destruct (existsSync _ _); cbn [negb];
    [|apply contained_unchanged; discriminate].
  destruct (unlinkSync _ _) as [disk'|] eqn:Hunlink;
    [|now apply contained_throw].
  apply unlinkSync_spec in Hunlink. subst disk'.
  split; [intros ? [= <-]; discriminate|].
  intros path Hout. cbn [fst disk]. rewrite assoc_remove.
  destruct (String.eqb_spec path
              (path_join [logDir; (sanitize fileName ++ ".json")%string]));
    [|reflexivity].
  now apply outside_not_sanitized with (fileName := fileName) in Hout.
Qed.

Lemma write_outside `{Platform} (fs fs' : filesystem)
  (fileName data path : string) :
  writeFileSync fs (path_join [logDir; (sanitize fileName ++ ".json")%string])
    data = Normal fs' ->
  child_of logDir path = None -> assoc path fs' = assoc path fs.
Proof.
  intros Hwrite Hout. apply writeFileSync_spec in Hwrite as [_ Hother].
  apply Hother. now apply outside_not_sanitized.
Qed.

Lemma save_log_contained `{Platform} (now : Z) (text : string) (s : server) :
  contained s (save_log now text s).
Proof.
  unfold save_log.
  destruct (b <- parseBody text;; logData <- get b "logData";;
            fileName <- get b "fileName";; Normal (logData, fileName))
    as [[logData fileName]|]; [|now apply contained_throw].
  destruct logData as [logData|];
    [|apply contained_unchanged; discriminate].
  destruct (ToBoolean (Some logData));
    [|apply contained_unchanged; discriminate].
  destruct fileName as [[| | |fileName| |]|];
    try (destruct (ToBoolean _);
         [now apply contained_throw|apply contained_unchanged; discriminate]);
    try (apply contained_unchanged; discriminate).
  destruct (ToBoolean (Some (JStr fileName)));
    [|apply contained_unchanged; discriminate].
  destruct (writeFileSync _ _ _) as [written|] eqn:Hwrite;
    [|now apply contained_throw].
  destruct (Array_sort _ _) as [sorted|].
  - split; [intros ? [= <-]; discriminate|].
    intros path Hout. cbn [fst disk].
    rewrite (cleanup_outside now written path Hout).
    eapply write_outside; eauto.
  - split; [discriminate|].
    intros path Hout. cbn [fst disk]. eapply write_outside; eauto.
Qed.

Lemma upload_logs_contained `{Platform} (now : Z) (text : string)
  (s : server) :
  contained s (upload_logs now text s).
Proof.
  unfold upload_logs.
  destruct (b <- parseBody text;; get b "logsData") as [logsData|];
    [|now apply contained_throw].
  destruct logsData as [logsData|];
    [|apply contained_unchanged; discriminate].
  destruct (ToBoolean (Some logsData));
    [|apply contained_unchanged; discriminate].
  destruct (List.length (as_array logsData) =? 0)%nat;
    [apply contained_unchanged; discriminate|].
  destruct (Array_sort _ _) as [sorted|].
  - destruct (writeFileSync _ _ _) as [written|] eqn:Hwrite.
    + split; [intros ? [= <-]; discriminate|].
      intros path Hout. cbn [fst disk]. eapply write_outside; eauto.
    + split; [intros ? [= <-]; discriminate|reflexivity].
  - split; [intros ? [= <-]; discriminate|reflexivity].
Qed.

Lemma manual_cleanup_contained `{Platform} (now : Z) (s : server) :
  contained s (fst (manual_cleanup now s), Normal (snd (manual_cleanup now s))).
Proof.
  split; [intros ? [= <-]; discriminate|].
  intros path Hout. cbn [fst manual_cleanup disk].
  now apply cleanup_outside.
Qed.

Lemma serveStaticFile_status `{Platform} (filePath : string) (s : server) :
  status (serveStaticFile filePath s) <> 403.
Proof.
  unfold serveStaticFile. destruct (readFileSync _ _); discriminate.
Qed.

Lemma dispatch_contained `{Platform} (now : Z) (req : request) (s : server) :
  contained s (dispatch now req s).
Proof.
  unfold dispatch. cbv zeta.
  destruct ((method req =? "GET") && (pathname req =? "/api/logs"))%bool;
    [apply contained_unchanged; discriminate|].
  destruct ((method req =? "GET") && (pathname req =? "/api/logs/list"))%bool;
    [apply contained_unchanged; discriminate|].
  destruct (if method req =? "GET" then _ else None) as [fileName|];
    [apply get_log_contained|].
  destruct ((method req =? "POST") && (pathname req =? "/api/logs/save"))%bool;
    [apply save_log_contained|].
  destruct (if method req =? "DELETE" then _ else None) as [fileName|];
    [apply delete_log_contained|].
  destruct ((method req =? "POST") &&
            (pathname req =? "/api/logs/cleanup"))%bool;
    [apply manual_cleanup_contained|].
  destruct ((method req =? "POST") &&
            (pathname req =? "/api/logs/upload"))%bool;
    [apply upload_logs_contained|].
  destruct (pathname req =? "/");
    [apply contained_unchanged, serveStaticFile_status|].
  destruct (endsWith (pathname req) ".html" || endsWith (pathname req) ".css"
            || endsWith (pathname req) ".js")%bool;
    [apply contained_unchanged, serveStaticFile_status|].
  apply contained_unchanged. discriminate.
Qed.

(* ------------------------------------------------------------------------- *)
(** ** C10: a sanitized name cannot leave the log directory                   *)
(* ------------------------------------------------------------------------- *)

(** C10.  For every file name, joining the log directory with the sanitized
    name and [.json] gives the path of an entry of the log directory: the
    directory, a separator and that name.  So the [startsWith] test of the
    GET and DELETE handlers always passes and they never answer 403, and the
    save handler, which has no such test, changes no path outside the log
    directory. *)
Theorem sanitized_name_stays_in_logDir `{Platform} (fileName : string) :
  let name := (sanitize fileName ++ ".json")%string in
  let filePath := path_join [logDir; name] in
  filePath = (logDir ++ "/" ++ name)%string /\
  child_of logDir filePath = Some name /\
  startsWith filePath logDir = true /\
  (forall s r, get_log fileName s = Normal r -> status r <> 403) /\
  (forall s r, snd (delete_log fileName s) = Normal r -> status r <> 403) /\
  (forall now text s path,
      child_of logDir path = None ->
      assoc path (disk (fst (save_log now text s))) = assoc path (disk s)).
Proof.
  intros name filePath. subst name filePath.
  split; [apply sanitized_path|].
  split; [apply sanitized_path_child|].
  split; [apply sanitized_path_startsWith|].
  split; [|split].
  - intros s r Hr. now apply (get_log_contained fileName s).
  - intros s r Hr. now apply (delete_log_contained fileName s).
  - intros now text s path Hout. now apply (save_log_contained now text s).
Qed.

(* ------------------------------------------------------------------------- *)
(** ** C4: no request is denied                                               *)
(* ------------------------------------------------------------------------- *)

(** C4, as amended.  No file name resolves outside the storage root once it
    is sanitized, so no request is answered 403, whatever name it carries,
    and neither a request nor a sweep changes a path outside the log
    directory: reading, saving and deleting treat a name like
    [../../etc/passwd] as the stream [______etc_passwd]. *)
Theorem no_request_is_denied `{Platform} (now : Z) (req : request)
  (s : server) :
  status (snd (handle now req s)) <> 403 /\
  (forall path, child_of logDir path = None ->
                assoc path (disk (fst (handle now req s))) =
                assoc path (disk s)) /\
  (forall path, child_of logDir path = None ->
                assoc path (cl_disk (cleanupOldLogs now (disk s))) =
                assoc path (disk s)) /\
  sanitize "../../etc/passwd" = "______etc_passwd".
Proof.
  assert (Hhandle :
            status (snd (handle now req s)) <> 403 /\
            forall path, child_of logDir path = None ->
                         assoc path (disk (fst (handle now req s))) =
                         assoc path (disk s)).
  { unfold handle.
    destruct (method req =? "OPTIONS"); [split; [discriminate|reflexivity]|].
    pose proof (dispatch_contained now req s) as [Hstatus Hdisk].
    destruct (dispatch now req s) as [s' [r|e]]; cbn [fst snd] in *.
    - split; [now apply Hstatus|exact Hdisk].
    - split; [discriminate|exact Hdisk]. }
  destruct Hhandle as [Hstatus Hdisk].
  split; [exact Hstatus|]. split; [exact Hdisk|].
  split; [|reflexivity].
  intros path Hout. now apply cleanup_outside.
Qed.

(* ------------------------------------------------------------------------- *)
(** ** C6: the last save wins, or the sweep does                              *)
(* ------------------------------------------------------------------------- *)

(** C6, as amended.  After two successive successful saves to one stream
    name, the file holds exactly the second call's data serialized (a string
    [logData] parsed first, or wrapped as [raw] when it does not parse), and
    nothing of the first call, unless the retention sweep that the second
    save runs deletes the file, which it does when the oldest entry just
    written is older than seven days; then there is no file. *)
Theorem second_save_replaces_the_file `{Platform} (now1 now2 : Z)
  (s : server) (text1 text2 : string) (b1 b2 logData1 logData2 : json)
  (fileName : string) :
  parseBody text1 = Normal b1 ->
  get b1 "logData" = Normal (Some logData1) ->
  get b1 "fileName" = Normal (Some (JStr fileName)) ->
  parseBody text2 = Normal b2 ->
  get b2 "logData" = Normal (Some logData2) ->
  get b2 "fileName" = Normal (Some (JStr fileName)) ->
  let first := handle now1 (POST_save text1) s in
  let second := handle now2 (POST_save text2) (fst first) in
  status (snd first) = 200 ->
  status (snd second) = 200 ->
  let written := JSON_stringify (data_to_save logData2) 2 in
  assoc (path_join [logDir; (sanitize fileName ++ ".json")%string])
    (disk (fst second)) =
  match expired now2 written with
  | Normal (Some _) => None
  | _ => Some (File written false)
  end.
Proof.
  intros _ _ _ Hb HlogData HfileName first second _ Hsecond written.
  subst second.
  destruct (save_log_success now2 text2 (fst first) Hsecond)
    as (b & logData & name & fs & sorted & Hb' & HlogData' & HfileName'
        & Hwrite & _ & _ & -> & _).
  rewrite Hb in Hb'. injection Hb' as <-.
  rewrite HlogData in HlogData'. injection HlogData' as <-.
  rewrite HfileName in HfileName'. injection HfileName' as <-.
  fold written in Hwrite.
  apply writeFileSync_spec in Hwrite as [Hfile _].
  rewrite assoc_cleanup.
  rewrite (doomed_log_file now2 fs _ written (sanitized_dirent fileName)
             (endsWith_app _ _) Hfile), Hfile.
  now destruct (expired now2 written) as [[o|]|e].
Qed.

(* ------------------------------------------------------------------------- *)
(** ** C9: what was saved is what is read                                     *)
(* ------------------------------------------------------------------------- *)

(** C9, as amended.  For every stream name other than [list] and every array
    of entries, a successful save of the array followed by GET
    /api/logs/:fileName of the same name answers 200 with the JSON text of
    the array, which parses back to the same entries in the same order,
    provided the retention sweep that the save runs does not delete the file
    just written (its oldest entry is not older than seven days). *)
Theorem saved_array_reads_back `{Platform} (now later : Z) (s : server)
  (text : string) (b : json) (fileName : string) (entries : list json) :
  parseBody text = Normal b ->
  get b "logData" = Normal (Some (JArr entries)) ->
  get b "fileName" = Normal (Some (JStr fileName)) ->
  fileName <> "list" ->
  let saved := handle now (POST_save text) s in
  status (snd saved) = 200 ->
  (forall oldestLog,
      expired now (JSON_stringify (JArr entries) 2)
      <> Normal (Some oldestLog)) ->
  JSON_parse (JSON_stringify (JArr entries) 2) = Normal (JArr entries) ->
  let read := handle later (GET_log fileName) (fst saved) in
  fst read = fst saved /\
  status (snd read) = 200 /\
  payload (snd read) = JSON_stringify (JArr entries) 2 /\
  JSON_parse (payload (snd read)) = Normal (JArr entries).
Proof.
  intros Hb HlogData HfileName Hlist saved Hsaved Hkept Hround read.
  subst read saved.
  destruct (save_log_success now text s Hsaved)
    as (b' & logData & name & fs & sorted & Hb' & HlogData' & HfileName'
        & Hwrite & _ & Hname & Hdisk & _).
  rewrite Hb in Hb'. injection Hb' as <-.
  rewrite HlogData in HlogData'. injection HlogData' as <-.
  rewrite HfileName in HfileName'. injection HfileName' as <-.
  cbn [data_to_save] in Hwrite.
  set (written := JSON_stringify (JArr entries) 2) in *.
  apply writeFileSync_spec in Hwrite as [Hfile _].
  set (s1 := fst (handle now (POST_save text) s)) in *.
  assert (Hstored :
            assoc (path_join [logDir; (sanitize fileName ++ ".json")%string])
              (disk s1) = Some (File written false)).
  { rewrite Hdisk, assoc_cleanup.
    rewrite (doomed_log_file now fs _ written (sanitized_dirent fileName)
               (endsWith_app _ _) Hfile), Hfile.
    destruct (expired now written) as [[o|]|e] eqn:Hexpired;
      [now elim (Hkept o)|reflexivity|reflexivity]. }
  rewrite (handle_GET_log later fileName s1 Hname Hlist).
  unfold get_log, existsSync, readFileSync.
  rewrite sanitized_path_startsWith, Hstored. cbn [negb bind fst snd status
    payload]. auto.
Qed.

(* ------------------------------------------------------------------------- *)
(** ** C2: the index after a rebuild, and after a save                        *)
(* ------------------------------------------------------------------------- *)

Lemma delete_log_success `{Platform} (now : Z) (fileName : string)
  (s : server) :
  status (snd (handle now (DELETE_log fileName) s)) = 200 ->
  allLogs (fst (handle now (DELETE_log fileName) s)) =
  fst (loadLogsFromFiles (disk (fst (handle now (DELETE_log fileName) s)))).
Proof.
  rewrite handle_DELETE_log. unfold delete_log.
  destruct (negb (startsWith _ _)); [other_status|].
  destruct (negb (existsSync _ _)); [other_status|].
  destruct (unlinkSync _ _); [reflexivity|other_status].
Qed.

(** C2, as amended.  Every rebuild ([loadLogsFromFiles]) leaves in the index
    exactly the entries of the log files on disk, as a multiset; POST
    /api/logs/cleanup, the scheduled sweep and a successful DELETE end with a
    rebuild, so after them the index holds no entry of a deleted file.  A
    successful save does not rebuild: it adds the saved entries to the index
    it finds and sorts. *)
Theorem index_is_rebuilt_or_patched `{Platform} :
  (forall d, Permutation (fst (loadLogsFromFiles d)) (stored_entries d)) /\
  (forall now s,
      let s' := fst (handle now POST_cleanup s) in
      Permutation (allLogs s') (stored_entries (disk s'))) /\
  (forall now s,
      let s' := scheduled now s in
      Permutation (allLogs s') (stored_entries (disk s'))) /\
  (forall now s fileName,
      let r := handle now (DELETE_log fileName) s in
      status (snd r) = 200 ->
      Permutation (allLogs (fst r)) (stored_entries (disk (fst r)))) /\
  (forall now s text,
      let r := handle now (POST_save text) s in
      status (snd r) = 200 ->
      exists b logData,
        parseBody text = Normal b /\
        get b "logData" = Normal (Some logData) /\
        Permutation (allLogs (fst r))
          (allLogs s ++ as_array (data_to_save logData))).
Proof.
  split; [exact loadLogsFromFiles_permutation|].
  split; [intros now s s'; apply loadLogsFromFiles_permutation|].
  split; [intros now s s'; apply loadLogsFromFiles_permutation|].
  split.
  - intros now s fileName r Hr. subst r.
    rewrite (delete_log_success now fileName s Hr).
    apply loadLogsFromFiles_permutation.
  - intros now s text r Hr. subst r.
    destruct (save_log_success now text s Hr)
      as (b & logData & name & fs & sorted & Hb & HlogData & _ & _ & Hsort
          & _ & _ & ->).
    exists b, logData. repeat split; try assumption.
    symmetry. now apply (Array_sort_permutation newest_first_or_epoch).
Qed.

(* ------------------------------------------------------------------------- *)
(** ** C8: the rebuilt index is sorted newest first, stably                   *)
(* ------------------------------------------------------------------------- *)

Lemma StronglySorted_on {A : Type} (R Q : A -> A -> Prop) (P : A -> Prop)
  (l : list A) :
  (forall a b, P a -> P b -> R a b -> Q a b) ->
  Forall P l -> StronglySorted R l -> StronglySorted Q l.
Proof.
  intros HRQ HP. induction 1 as [|a l Hl IH Ha]; [constructor|].
  inversion HP as [|? ? Pa Pl]; subst.
  constructor; [now apply IH|].
  rewrite Forall_forall in *. intros b Hb. apply HRQ; auto.
Qed.

Lemma at_time_key `{Platform} (t : Z) (entry : json) :
  (exists t', time_of entry = Some t') ->
  at_time t entry = (time_key entry =? t)%Z.
Proof. intros [t' Ht]. unfold at_time, time_key. now rewrite Ht. Qed.

(** C8, as amended.  After a rebuild of the index from log files whose
    entries all carry a valid date (so none is null), the index, and so the
    array GET /api/logs returns, holds the stored entries sorted by
    timestamp, newest first, and entries with equal timestamps stand in the
    order in which the files were enumerated and read. *)
Theorem rebuilt_index_is_sorted_newest_first `{Platform} (d : filesystem) :
  Forall (fun entry => exists t, time_of entry = Some t) (stored_entries d) ->
  let index := fst (loadLogsFromFiles d) in
  Permutation (stored_entries d) index /\
  StronglySorted newer_or_equal index /\
  (forall t, filter (at_time t) index = filter (at_time t) (stored_entries d))
  /\
  (forall now s, allLogs s = index ->
                 handle now GET_logs s = (s, reply 200 (JArr index))).
Proof.
  intros Hvalid index. subst index. rewrite loadLogsFromFiles_entries.
  destruct (Array_sort_stable newest_first time_key
              (fun entry => exists t, time_of entry = Some t)
              newest_first_key (stored_entries d) Hvalid)
    as (sorted & -> & Hperm & Hsorted & Hstable).
  assert (Hsorted_valid :
            Forall (fun entry => exists t, time_of entry = Some t) sorted).
  { eapply Permutation_Forall; eauto. }
  split; [assumption|]. split; [|split].
  - eapply StronglySorted_on; [|exact Hsorted_valid|exact Hsorted].
    intros a b [ta Ha] [tb Hb]. unfold newer_or_equal, time_key.
    rewrite Ha, Hb. eauto.
  - intros t.
    rewrite (filter_ext_in (at_time t) (fun e => (time_key e =? t)%Z) sorted).
    2:{ intros e He. apply at_time_key.
        rewrite Forall_forall in Hsorted_valid. auto. }
    rewrite (filter_ext_in (at_time t) (fun e => (time_key e =? t)%Z)
               (stored_entries d)).
    2:{ intros e He. apply at_time_key. rewrite Forall_forall in Hvalid. auto. }
    apply Hstable.
  - intros now s Hs. unfold handle, dispatch, GET_logs.
    cbn [method pathname String.eqb Ascii.eqb Bool.eqb andb]. now rewrite Hs.
Qed.

(* ------------------------------------------------------------------------- *)
(** ** The claims on concrete logs                                            *)
(* ------------------------------------------------------------------------- *)

Module OnNode.

Import Node Sample.

(** C1 at the retention boundary of the specification, swept at
    2025-01-15T00:00:00Z: the file whose entry is one second older than seven
    days goes, the file whose entry is one second younger stays, and a file
    with an old and a recent entry goes in full. *)
Lemma cleanup_at_the_retention_boundary :
  assoc (path_join [logDir; "old.json"])
    (cl_disk (cleanupOldLogs jan15 boundary_disk)) = None /\
  assoc (path_join [logDir; "recent.json"])
    (cl_disk (cleanupOldLogs jan15 boundary_disk)) =
  Some (File (stringify (JArr [entry "2025-01-08T00:00:01Z"]) 2) false) /\
  assoc (path_join [logDir; "mixed.json"])
    (cl_disk (cleanupOldLogs jan15 boundary_disk)) = None.
Proof.
  assert (Hnow : (0 <= jan15 <= 8640000000000000)%Z) by (unfold jan15; lia).
  split; [|split].
  - pose proof (@cleanup_deletes_by_minimum_timestamp platform jan15
                  boundary_disk
                  "old.json" (stringify (JArr [entry "2025-01-07T23:59:59Z"]) 2)
                  (JArr [entry "2025-01-07T23:59:59Z"])
                  Hnow eq_refl eq_refl eq_refl
                  ltac:(vm_compute; reflexivity)
                  ltac:(repeat constructor; discriminate)
                  ltac:(vm_compute; discriminate)) as H.
    cbv zeta in H.
    replace (minimum_of (valid_times (as_array
               (JArr [entry "2025-01-07T23:59:59Z"]))))
      with (Some 1736294399000%Z) in H by (vm_compute; reflexivity).
    apply H. unfold jan15. lia.
  - pose proof (@cleanup_deletes_by_minimum_timestamp platform jan15
                  boundary_disk
                  "recent.json"
                  (stringify (JArr [entry "2025-01-08T00:00:01Z"]) 2)
                  (JArr [entry "2025-01-08T00:00:01Z"])
                  Hnow eq_refl eq_refl eq_refl
                  ltac:(vm_compute; reflexivity)
                  ltac:(repeat constructor; discriminate)
                  ltac:(vm_compute; discriminate)) as H.
    cbv zeta in H.
    replace (minimum_of (valid_times (as_array
               (JArr [entry "2025-01-08T00:00:01Z"]))))
      with (Some 1736294401000%Z) in H by (vm_compute; reflexivity).
    destruct H as [Hiff [Hgone|Hkept]]; [|exact Hkept].
    apply Hiff in Hgone. unfold jan15 in Hgone. lia.
  - pose proof (@cleanup_deletes_by_minimum_timestamp platform jan15
                  boundary_disk
                  "mixed.json"
                  (stringify (JArr [entry "2025-01-14T00:00:00Z";
                                    entry "2025-01-01T00:00:00Z"]) 2)
                  (JArr [entry "2025-01-14T00:00:00Z";
                         entry "2025-01-01T00:00:00Z"])
                  Hnow eq_refl eq_refl eq_refl
                  ltac:(vm_compute; reflexivity)
                  ltac:(repeat constructor; discriminate)
                  ltac:(vm_compute; discriminate)) as H.
    cbv zeta in H.
    replace (minimum_of (valid_times (as_array
               (JArr [entry "2025-01-14T00:00:00Z";
                      entry "2025-01-01T00:00:00Z"]))))
      with (Some 1735689600000%Z) in H by (vm_compute; reflexivity).
    apply H. unfold jan15. lia.
Defined.

(** C1 fails on a file that cannot be processed: an immutable file and a file
    with a null entry, each with 2025-01-01 as its only timestamp, are still
    there after a sweep at 2025-01-15, their exceptions on the console; the
    ordinary file with the same entry is deleted. *)
Lemma old_file_can_survive_a_sweep :
  let swept := cleanupOldLogs jan15 faulty_disk in
  time_of (entry "2025-01-01T00:00:00Z") = Some 1735689600000%Z /\
  sevenDaysAgo jan15 = Time 1736294400000 /\
  existsSync (cl_disk swept) (path_join [logDir; "locked.json"]) = true /\
  existsSync (cl_disk swept) (path_join [logDir; "nulls.json"]) = true /\
  existsSync (cl_disk swept) (path_join [logDir; "old.json"]) = false /\
  cl_console swept =
    [CleanupError "broken.json" SyntaxError;
     CleanupDeleted "old.json" (entry "2025-01-01T00:00:00Z");
     CleanupError "dir.json" EISDIR;
     CleanupError "locked.json" EPERM;
     CleanupError "nulls.json" TypeError;
     CleanupComplete 1].
Proof. vm_compute. repeat split; reflexivity. Qed.

(** C3 on two files with the same two entries, one entry with a timestamp
    that does not parse and one from 2025-01-01, swept at 2025-01-15: with
    the unparseable entry first the file stays, with the old entry first it
    is deleted. *)
Theorem unparseable_first_entry_blocks_deletion :
  let swept := cleanupOldLogs jan15 unparseable_disk in
  deletedFiles swept = ["b.json"] /\
  existsSync (cl_disk swept) (path_join [logDir; "a.json"]) = true /\
  existsSync (cl_disk swept) (path_join [logDir; "b.json"]) = false /\
  time_of (entry "not-a-date") = None /\
  time_of (entry "2025-01-01T00:00:00Z") = Some 1735689600000%Z /\
  sevenDaysAgo jan15 = Time 1736294400000.
Proof. vm_compute. repeat split; reflexivity. Qed.

(** C2 fails on two successful saves of one entry each to the stream [t]:
    the file holds the second entry only, the index both. *)
Lemma index_keeps_overwritten_entries :
  let first := handle jan15 (save (JArr [entry "2025-01-14T10:00:00Z"]) "t")
                 fresh in
  let second := handle jan15 (save (JArr [entry "2025-01-14T11:00:00Z"]) "t")
                  (fst first) in
  status (snd first) = 200 /\ status (snd second) = 200 /\
  allLogs (fst second) =
    [entry "2025-01-14T11:00:00Z"; entry "2025-01-14T10:00:00Z"] /\
  stored_entries (disk (fst second)) = [entry "2025-01-14T11:00:00Z"] /\
  ~ Permutation (allLogs (fst second)) (stored_entries (disk (fst second))).
Proof.
  cbv zeta. repeat split; try (vm_compute; reflexivity).
  intros Hperm. apply Permutation_length in Hperm.
  vm_compute in Hperm. discriminate.
Qed.

(** The load at module start runs before the sweep: the index keeps the
    entries of the files the first sweep deletes until the next rebuild. *)
Lemma startup_index_is_loaded_before_the_sweep :
  let s := startup jan15 boundary_disk in
  map fst (disk s) =
    [(logDir ++ "/recent.json")%string; (logDir ++ "/empty.json")%string] /\
  allLogs s =
    [entry "2025-01-14T00:00:00Z"; entry "2025-01-08T00:00:01Z";
     entry "2025-01-07T23:59:59Z"; entry "2025-01-01T00:00:00Z"].
Proof. vm_compute. split; reflexivity. Qed.

(** C4 fails on the name [../../etc/passwd]: a read of it is answered 404,
    not 403, and a save under it is answered 200 and writes the file
    [______etc_passwd.json] of the log directory, which a read then
    returns. *)
Lemma traversal_name_is_served_not_denied :
  let saved := handle jan15
                 (save (JArr [entry "2025-01-14T10:00:00Z"])
                    "../../etc/passwd") fresh in
  status (snd (handle jan15 (GET_log "../../etc/passwd") fresh)) = 404 /\
  status (snd saved) = 200 /\
  map fst (disk (fst saved)) = [(logDir ++ "/______etc_passwd.json")%string] /\
  status (snd (handle jan15 (GET_log "../../etc/passwd") (fst saved))) = 200 /\
  status (snd (handle jan15 (DELETE_log "../../etc/passwd") (fst saved)))
  = 200.
Proof. vm_compute. repeat split; reflexivity. Qed.

(** C5 on a body with [logData] and no [fileName]. *)
Lemma save_without_fileName_is_rejected :
  exists reason,
    handle jan15
      (POST_save (stringify
                    (JObj [("logData", JArr [entry "2025-01-14T10:00:00Z"])])
                    0)) fresh
    = (fresh, reply 400 (failure reason)) /\
    status (reply 400 (failure reason)) = 400 /\
    (reason = "logData is required" \/ reason = "fileName is required").
Proof.
  apply (@save_without_field_is_rejected platform jan15 fresh _
           (JObj [("logData", JArr [entry "2025-01-14T10:00:00Z"])])
           (Some (JArr [entry "2025-01-14T10:00:00Z"])) None).
  - vm_compute. reflexivity.
  - reflexivity.
  - reflexivity.
  - now right.
Defined.

(** C6 fails when the second save carries logs older than seven days: both
    saves are answered 200 and no file is left. *)
Lemma second_save_of_old_logs_leaves_no_file :
  let first := handle jan15 (save (JArr [entry "2025-01-14T10:00:00Z"]) "t")
                 fresh in
  let second := handle jan15 (save (JArr [entry "2025-01-01T00:00:00Z"]) "t")
                  (fst first) in
  status (snd first) = 200 /\ status (snd second) = 200 /\
  existsSync (disk (fst first)) (path_join [logDir; "t.json"]) = true /\
  existsSync (disk (fst second)) (path_join [logDir; "t.json"]) = false /\
  disk (fst second) = [].
Proof. vm_compute. repeat split; reflexivity. Qed.

(** C6 on two saves of recent logs to the stream [t]: the file holds the
    second array. *)
Lemma second_save_of_recent_logs_wins :
  let first := handle jan15 (save (JArr [entry "2025-01-14T10:00:00Z"]) "t")
                 fresh in
  let second := handle jan15 (save (JArr [entry "2025-01-14T11:00:00Z"]) "t")
                  (fst first) in
  assoc (path_join [logDir; "t.json"]) (disk (fst second)) =
  Some (File (stringify (JArr [entry "2025-01-14T11:00:00Z"]) 2) false).
Proof.
  cbv zeta.
  pose proof (@second_save_replaces_the_file platform jan15 jan15 fresh
                (body (save (JArr [entry "2025-01-14T10:00:00Z"]) "t"))
                (body (save (JArr [entry "2025-01-14T11:00:00Z"]) "t"))
                (JObj [("logData", JArr [entry "2025-01-14T10:00:00Z"]);
                       ("fileName", JStr "t")])
                (JObj [("logData", JArr [entry "2025-01-14T11:00:00Z"]);
                       ("fileName", JStr "t")])
                (JArr [entry "2025-01-14T10:00:00Z"])
                (JArr [entry "2025-01-14T11:00:00Z"]) "t"
                ltac:(vm_compute; reflexivity) eq_refl eq_refl
                ltac:(vm_compute; reflexivity) eq_refl eq_refl
                ltac:(vm_compute; reflexivity)
                ltac:(vm_compute; reflexivity)) as H.
  cbv zeta in H.
  replace (expired jan15
             (JSON_stringify
                (data_to_save (JArr [entry "2025-01-14T11:00:00Z"])) 2))
    with (@Normal (option json) None) in H by (vm_compute; reflexivity).
  exact H.
Defined.

(** C8 on three files with entries at two instants: the index is sorted
    newest first and the entries of 2025-01-10 keep the order in which they
    were read. *)
Lemma tied_entries_keep_their_order :
  Permutation (stored_entries tied_disk) (fst (loadLogsFromFiles tied_disk)) /\
  StronglySorted newer_or_equal (fst (loadLogsFromFiles tied_disk)) /\
  filter (at_time 1736467200000) (fst (loadLogsFromFiles tied_disk)) =
  filter (at_time 1736467200000) (stored_entries tied_disk).
Proof.
  assert (Hvalid : Forall (fun e => exists t, time_of e = Some t)
                     (stored_entries tied_disk)).
  { replace (stored_entries tied_disk)
      with [JObj [("timestamp", JStr "2025-01-10T00:00:00Z"); ("n", JNum 1)];
            JObj [("timestamp", JStr "2025-01-12T00:00:00Z"); ("n", JNum 2)];
            JObj [("timestamp", JStr "2025-01-10T00:00:00Z"); ("n", JNum 3)];
            JObj [("timestamp", JStr "2025-01-12T00:00:00Z"); ("n", JNum 4)];
            JObj [("timestamp", JStr "2025-01-10T00:00:00Z"); ("n", JNum 5)]]
      by (vm_compute; reflexivity).
    repeat constructor; eexists; vm_compute; reflexivity. }
  destruct (@rebuilt_index_is_sorted_newest_first platform tied_disk Hvalid)
    as (Hperm & Hsorted & Hstable & _).
  split; [exact Hperm|]. split; [exact Hsorted|]. apply Hstable.
Defined.

(** C8 fails on a file with a null entry: the comparator throws, the
    exception is caught and the index stays as loaded, an older entry before
    a newer one.  With an unparseable timestamp between them the comparator
    answers NaN and the two entries stay in ascending order as well. *)
Lemma index_can_stay_unsorted :
  loadLogsFromFiles null_disk =
    ([JNull; entry "2025-01-10T00:00:00Z"; entry "2025-01-12T00:00:00Z"],
     [LoadError TypeError]) /\
  fst (loadLogsFromFiles garbled_disk) =
    [entry "2025-01-10T00:00:00Z"; entry "not-a-date";
     entry "2025-01-12T00:00:00Z"] /\
  time_of (entry "2025-01-10T00:00:00Z") = Some 1736467200000%Z /\
  time_of (entry "2025-01-12T00:00:00Z") = Some 1736640000000%Z /\
  time_of (entry "not-a-date") = None.
Proof. vm_compute. repeat split; reflexivity. Qed.

(** C9 fails on an array with an entry older than seven days: the save is
    answered 200, the read that follows 404.  It fails on the stream name
    [list] too, whose read is the list of files. *)
Lemma saved_old_array_is_gone_on_read :
  let saved := handle jan15 (save (JArr [entry "2025-01-01T00:00:00Z"]) "t")
                 fresh in
  let listed := handle jan15 (save (JArr [entry "2025-01-14T10:00:00Z"])
                                "list") fresh in
  status (snd saved) = 200 /\
  status (snd (handle jan15 (GET_log "t") (fst saved))) = 404 /\
  status (snd listed) = 200 /\
  parse (payload (snd (handle jan15 (GET_log "list") (fst listed)))) =
  Normal (JObj [("success", JBool true); ("count", JNum 1);
                ("files", JArr [JStr "list.json"])]).
Proof. vm_compute. repeat split; reflexivity. Qed.

(** C9 on an array of two recent entries saved to the stream [t]. *)
Lemma saved_recent_array_reads_back :
  let entries := [entry "2025-01-14T10:00:00Z"; entry "2025-01-14T11:00:00Z"] in
  let saved := handle jan15 (save (JArr entries) "t") fresh in
  let read := handle jan15 (GET_log "t") (fst saved) in
  fst read = fst saved /\
  status (snd read) = 200 /\
  payload (snd read) = JSON_stringify (JArr entries) 2 /\
  JSON_parse (payload (snd read)) = Normal (JArr entries).
Proof.
  cbv zeta.
  apply (@saved_array_reads_back platform jan15 jan15 fresh _
           (JObj [("logData", JArr [entry "2025-01-14T10:00:00Z";
                                    entry "2025-01-14T11:00:00Z"]);
                  ("fileName", JStr "t")]) "t").
  - vm_compute. reflexivity.
  - reflexivity.
  - reflexivity.
  - discriminate.
  - vm_compute. reflexivity.
  - intros oldestLog.
    replace (expired jan15
               (JSON_stringify
                  (JArr [entry "2025-01-14T10:00:00Z";
                         entry "2025-01-14T11:00:00Z"]) 2))
      with (@Normal (option json) None) by (vm_compute; reflexivity).
    discriminate.
  - vm_compute. reflexivity.
Defined.

End OnNode.

(* ------------------------------------------------------------------------- *)
(** * Further properties of the server                                        *)
(* ------------------------------------------------------------------------- *)

(** ** Sanitized names *)

Lemma word_char_underscore : word_char "_" = true.
Proof. reflexivity. Qed.

(** X1.  The sanitized form of a file name has the length of the name and
    only characters of [[A-Za-z0-9_-]]; a name of such characters is left as
    it is, so sanitizing twice is sanitizing once. *)
Theorem sanitize_gives_a_word (fileName : string) :
  String.length (sanitize fileName) = String.length fileName /\
  Forall (fun c => word_char c = true) (chars (sanitize fileName)) /\
  (Forall (fun c => word_char c = true) (chars fileName) ->
   sanitize fileName = fileName) /\
  sanitize (sanitize fileName) = sanitize fileName.
Proof.
  assert (Hword : forall s, Forall (fun c => word_char c = true)
                              (chars (sanitize s))).
  { induction s as [|c s IH]; [constructor|].
    cbn [sanitize chars]. constructor; [|exact IH].
    destruct (word_char c) eqn:Hc; [exact Hc|reflexivity]. }
  assert (Hid : forall s, Forall (fun c => word_char c = true) (chars s) ->
                          sanitize s = s).
  { induction s as [|c s IH]; [reflexivity|].
    cbn [chars sanitize]. intros Hs. inversion Hs as [|? ? Hc Hrest]; subst.
    now rewrite Hc, (IH Hrest). }
  split; [|split; [apply Hword|split; [apply Hid|apply Hid, Hword]]].
  induction fileName as [|c s IH]; [reflexivity|].
  cbn [sanitize String.length]. now rewrite IH.
Qed.

(** ** Requests that read *)

(** X2.  A GET request, whatever its path, leaves the files and the index as
    they are: listing, reading one file, reading the index and serving a
    static file write nothing, also when they end in an error. *)
Theorem get_requests_change_nothing `{Platform} (now : Z) (req : request)
  (s : server) :
  method req = "GET" ->
  disk (fst (handle now req s)) = disk s /\
  allLogs (fst (handle now req s)) = allLogs s.
Proof.
  intros Hget. unfold handle, dispatch. rewrite Hget.
  cbn [String.eqb Ascii.eqb Bool.eqb andb].
  destruct (pathname req =? "/api/logs"); [now split|].
  destruct (pathname req =? "/api/logs/list"); [now split|].
  destruct (strip_prefix "/api/logs/" (pathname req)) as [fileName|].
  - destruct (negb (fileName =? "") && negb (fileName =? "list"))%bool.
    + destruct (get_log fileName s); now split.
    + destruct (pathname req =? "/"); [now split|].
      destruct (endsWith (pathname req) ".html" ||
                endsWith (pathname req) ".css" ||
                endsWith (pathname req) ".js")%bool; now split.
  - destruct (pathname req =? "/"); [now split|].
    destruct (endsWith (pathname req) ".html" ||
              endsWith (pathname req) ".css" ||
              endsWith (pathname req) ".js")%bool; now split.
Qed.

(** ** DELETE /api/logs/:fileName *)




(** X4.  A DELETE that is not answered 200 has changed nothing: neither a
    file nor the index.  That holds for the 404 of a missing file and for the
    500 of a file that cannot be removed. *)
Theorem failed_delete_changes_nothing `{Platform} (now : Z)
  (fileName : string) (s : server) :
  status (snd (handle now (DELETE_log fileName) s)) <> 200 ->
  disk (fst (handle now (DELETE_log fileName) s)) = disk s /\
  allLogs (fst (handle now (DELETE_log fileName) s)) = allLogs s.
Proof.
  rewrite handle_DELETE_log. unfold delete_log.
  destruct (negb (startsWith _ _)); [now split|].
  destruct (negb (existsSync _ _)); [now split|].
  destruct (unlinkSync _ _); [|now split].
  cbn [snd status reply]. congruence.
Qed.

(** ** The summary of a sweep *)

Lemma append_inj (p a b : string) : (p ++ a)%string = (p ++ b)%string -> a = b.
Proof.
  induction p as [|c p IH]; cbn [append]; [auto|].
  intros [= E]. auto.
Qed.

Lemma cleanup_file_deleted `{Platform} (now : Z) (st : cleanup)
  (file : string) :
  dirent file = true ->
  let added :=
    if doomed now (cl_disk st) (logDir ++ String "/" file) then [file]
    else [] in
  deletedFiles (cleanup_file now st file) = deletedFiles st ++ added /\
  deletedCount (cleanup_file now st file) =
    deletedCount st + List.length added.
Proof.
  intros Hd. unfold cleanup_file, doomed, readFileSync, unlinkSync.
  rewrite (logDir_join _ Hd), (child_of_join _ _ Hd).
  destruct (endsWith file ".json");
    [|cbn; now rewrite app_nil_r, Nat.add_0_r].
  destruct (assoc (logDir ++ String "/" file) (cl_disk st))
    as [[content [|]|]|]; cbn [bind andb];
    try destruct (expired now content) as [[o|]|e']; cbn;
    rewrite ?app_nil_r, ?Nat.add_0_r, ?Nat.add_1_r; auto.
Qed.

Lemma doomed_absent `{Platform} (now : Z) (d : filesystem) (path : string) :
  assoc path d = None -> doomed now d path = false.
Proof.
  unfold doomed. intros ->.
  destruct (child_of logDir path); [apply andb_false_r|reflexivity].
Qed.

Lemma doomed_in_progress `{Platform} (now : Z) (d cur : filesystem)
  (seen : list string) (path : string) :
  cur = filter (fun e => negb (doomed now d (fst e) &&
                               existsb (String.eqb (fst e)) seen)) d ->
  doomed now cur path =
  (doomed now d path && negb (existsb (String.eqb path) seen))%bool.
Proof.
  intros ->.
  assert (Hassoc :
            assoc path
              (filter (fun e => negb (doomed now d (fst e) &&
                                      existsb (String.eqb (fst e)) seen)) d) =
            if doomed now d path && existsb (String.eqb path) seen
            then None else assoc path d).
  { rewrite (assoc_filter
               (fun p => negb (doomed now d p && existsb (String.eqb p) seen))
               path d).
    now destruct (doomed now d path && existsb (String.eqb path) seen). }
  destruct (doomed now d path) eqn:Hd;
    [destruct (existsb (String.eqb path) seen)|]; cbn [andb negb] in *.
  - apply doomed_absent. exact Hassoc.
  - now rewrite (doomed_assoc now _ _ _ Hassoc).
  - now rewrite (doomed_assoc now _ _ _ Hassoc).
Qed.

Lemma cleanup_fold_deleted `{Platform} (now : Z) (d : filesystem)
  (files : list string) :
  Forall (fun name => dirent name = true) files ->
  let st := fold_left (cleanup_file now) files
              {| cl_disk := d; deletedCount := 0;
                 deletedFiles := []; cl_console := [] |} in
  deletedCount st = List.length (deletedFiles st) /\
  forall file, In file (deletedFiles st) <->
               In file files /\
               doomed now d (logDir ++ String "/" file) = true.
Proof.
  induction files as [|file files IH] using rev_ind; intros Hd st.
  - subst st. cbn. split; [reflexivity|]. intros f. tauto.
  - apply Forall_app in Hd as [Hfiles Hfile].
    inversion Hfile as [|? ? Hdirent _]; subst.
    destruct (IH Hfiles) as [IHcount IHin].
    destruct (cleanup_fold now d files Hfiles) as [Hdisk _].
    cbv zeta in Hdisk. subst st. rewrite fold_left_app. cbn [fold_left].
    set (st := fold_left (cleanup_file now) files _) in *.
    destruct (cleanup_file_deleted now st file Hdirent) as [-> ->].
    rewrite (doomed_in_progress now d _ _ _ Hdisk).
    set (path := (logDir ++ String "/" file)%string).
    split.
    + rewrite length_app. now rewrite IHcount.
    + intros f. rewrite in_app_iff, in_app_iff, IHin.
      destruct (doomed now d path) eqn:Hdoomed; cbn [andb].
      * destruct (existsb (String.eqb path) _) eqn:Hseen; cbn [negb In].
        -- apply existsb_exists in Hseen as (p & Hp & Heq).
           apply String.eqb_eq in Heq. subst p.
           apply in_map_iff in Hp as (f' & Hf' & Hin').
           apply append_inj in Hf'. injection Hf' as ->.
           split; [tauto|].
           intros [[Hin|[<-|[]]] Hdo]; left; auto.
        -- split.
           ++ intros [[Hin Hdo]|[<-|[]]]; auto.
           ++ intros [[Hin|[<-|[]]] Hdo]; auto.
      * cbn [In]. split; [tauto|].
        intros [[Hin|[<-|[]]] Hdo]; [auto|]. fold path in Hdo. congruence.
Qed.

Lemma cleanup_count_is_length `{Platform} (now : Z) (d : filesystem) :
  deletedCount (cleanupOldLogs now d) =
  List.length (deletedFiles (cleanupOldLogs now d)).
Proof.
  apply (cleanup_fold_deleted now d (readdirSync d logDir)
           (readdirSync_dirent d logDir)).
Qed.

Lemma cleanup_summary_is_swept `{Platform} (now : Z) (d : filesystem)
  (file : string) :
  In file (deletedFiles (cleanupOldLogs now d)) ->
  In file (readdirSync d logDir) /\
  doomed now d (path_join [logDir; file]) = true.
Proof.
  pose proof (readdirSync_dirent d logDir) as Hdirent.
  destruct (cleanup_fold_deleted now d (readdirSync d logDir) Hdirent)
    as [_ Hin].
  unfold cleanupOldLogs. cbn [deletedFiles]. rewrite Hin.
  rewrite Forall_forall in Hdirent.
  intros [Hf Hdo]. split; [exact Hf|].
  now rewrite (logDir_join _ (Hdirent _ Hf)).
Qed.

(** X5.  The summary of a sweep tells what the sweep did: [deletedCount] is
    the number of names in [deletedFiles], and a name is in [deletedFiles]
    exactly when it is a listed entry of the log directory that the retention
    rule dooms; every such name ends in [.json] and its file is gone. *)
Theorem cleanup_summary_is_accurate `{Platform} (now : Z) (d : filesystem) :
  let swept := cleanupOldLogs now d in
  deletedCount swept = List.length (deletedFiles swept) /\
  (forall file,
      In file (deletedFiles swept) <->
      In file (readdirSync d logDir) /\
      doomed now d (path_join [logDir; file]) = true) /\
  (forall file,
      In file (deletedFiles swept) ->
      endsWith file ".json" = true /\
      existsSync d (path_join [logDir; file]) = true /\
      existsSync (cl_disk swept) (path_join [logDir; file]) = false).
Proof.
  intros swept.
  pose proof (readdirSync_dirent d logDir) as Hdirent.
  destruct (cleanup_fold_deleted now d (readdirSync d logDir) Hdirent)
    as [Hcount Hin].
  assert (Hiff : forall file,
             In file (deletedFiles swept) <->
             In file (readdirSync d logDir) /\
             doomed now d (path_join [logDir; file]) = true).
  { intros file. subst swept. unfold cleanupOldLogs. cbn [deletedFiles].
    rewrite Hin. rewrite Forall_forall in Hdirent.
    split; intros [Hf Hdo]; (split; [exact Hf|]);
      [now rewrite (logDir_join _ (Hdirent _ Hf))
      |now rewrite (logDir_join _ (Hdirent _ Hf)) in Hdo]. }
  split; [exact Hcount|]. split; [exact Hiff|].
  intros file Hfile. apply Hiff in Hfile as [Hlisted Hdoomed].
  subst swept. unfold existsSync. rewrite assoc_cleanup, Hdoomed.
  unfold doomed in Hdoomed.
  destruct (child_of logDir (path_join [logDir; file])) as [name|] eqn:Hc;
    [|discriminate].
  rewrite Forall_forall in Hdirent.
  rewrite (logDir_join _ (Hdirent _ Hlisted)),
    (child_of_join _ _ (Hdirent _ Hlisted)) in Hc.
  injection Hc as <-.
  apply andb_true_iff in Hdoomed as [Hjson Hfile].
  split; [exact Hjson|]. split; [|reflexivity].
  now destruct (assoc (path_join [logDir; file]) d).
Qed.

Lemma doomed_after_cleanup `{Platform} (now : Z) (d : filesystem)
  (path : string) :
  doomed now (cl_disk (cleanupOldLogs now d)) path = false.
Proof.
  pose proof (assoc_cleanup now d path) as Hassoc.
  destruct (doomed now d path) eqn:Hdoomed.
  - now apply doomed_absent.
  - now rewrite (doomed_assoc now _ _ _ Hassoc).
Qed.

(** X6.  A sweep leaves nothing for a second sweep at the same instant: run
    on the files the first sweep left, it deletes no file, reports a count of
    zero and an empty list, and leaves the files as they are. *)
Theorem cleanup_again_deletes_nothing `{Platform} (now : Z) (d : filesystem) :
  let once := cleanupOldLogs now d in
  let again := cleanupOldLogs now (cl_disk once) in
  cl_disk again = cl_disk once /\
  deletedFiles again = [] /\
  deletedCount again = 0.
Proof.
  intros once again.
  assert (Hfiles : deletedFiles again = []).
  { destruct (deletedFiles again) as [|file files] eqn:Hdeleted;
      [reflexivity|].
    destruct (cleanup_summary_is_swept now (cl_disk once) file) as [_ Hdo].
    { change (In file (deletedFiles again)). rewrite Hdeleted. now left. }
    subst once. now rewrite doomed_after_cleanup in Hdo. }
  split; [|split; [exact Hfiles|]].
  - subst again. rewrite cleanup_disk.
    rewrite (filter_ext _ (fun _ => true)).
    + generalize (cl_disk once). intros l.
      induction l as [|e l IH]; [reflexivity|].
      cbn [filter]. now rewrite IH.
    + intros e. subst once. now rewrite doomed_after_cleanup.
  - pose proof (cleanup_count_is_length now (cl_disk once)) as Hcount.
    fold again in Hcount. now rewrite Hcount, Hfiles.
Qed.

(** X7.  A sweep never removes a file for another reason than its age: a path
    that held something before the sweep and holds nothing after it is an
    entry [*.json] of the log directory, held a file that may be removed, and
    the text of the file parses to logs of which one has a timestamp that is
    a valid date before the cutoff. *)
Theorem cleanup_deletes_only_old_logs `{Platform} (now : Z) (d : filesystem)
  (path : string) (n : node) :
  assoc path d = Some n ->
  assoc path (cl_disk (cleanupOldLogs now d)) = None ->
  exists name content logs entry t cutoff,
    path = path_join [logDir; name] /\
    endsWith name ".json" = true /\
    n = File content false /\
    JSON_parse content = Normal logs /\
    In entry (as_array logs) /\
    time_of entry = Some t /\
    sevenDaysAgo now = Time cutoff /\
    (t < cutoff)%Z.
Proof.
  intros Hheld. rewrite assoc_cleanup.
  destruct (doomed now d path) eqn:Hdoomed; [intros _|congruence].
  unfold doomed in Hdoomed. rewrite Hheld in Hdoomed.
  destruct (child_of logDir path) as [name|] eqn:Hchild; [|discriminate].
  apply andb_true_iff in Hdoomed as [Hjson Hexpired].
  destruct n as [content [|]|]; try discriminate.
  destruct (expired now content) as [[oldestLog|]|] eqn:Hold;
    try discriminate.
  apply expired_has_old_entry in Hold
    as (logs & t & cutoff & Hparse & Hin & Htime & Hcut & Hlt).
  apply child_of_inv in Hchild as [-> Hdirent].
  exists name, content, logs, oldestLog, t, cutoff.
  rewrite (logDir_join _ Hdirent). repeat split; assumption.
Qed.

Lemma expired_later `{Platform} (now later : Z) (content : string)
  (oldestLog : json) :
  (now <= later <= 8640000000000000)%Z ->
  expired now content = Normal (Some oldestLog) ->
  expired later content = Normal (Some oldestLog).
Proof.
  intros Hlater. unfold expired.
  destruct (JSON_parse content) as [logs|]; [|discriminate].
  cbn [bind]. cbv zeta.
  destruct (as_array logs) as [|first rest]; [discriminate|].
  destruct (reduce older rest first) as [oldest|]; [|discriminate].
  cbn [bind]. destruct (get oldest "timestamp") as [ts|]; [|discriminate].
  cbn [bind]. destruct (new_Date ts) as [|t]; [discriminate|].
  unfold sevenDaysAgo, TimeClip.
  destruct (Z.leb_spec (Z.abs (now - 7 * 24 * 60 * 60 * 1000))
              8640000000000000) as [Hnow|_]; [|discriminate].
  destruct (Z.leb_spec (Z.abs (later - 7 * 24 * 60 * 60 * 1000))
              8640000000000000) as [_|Hout]; [|lia].
  cbn [date_lt].
  destruct (Z.ltb_spec t (now - 7 * 24 * 60 * 60 * 1000)) as [Hold|_];
    [|discriminate].
  destruct (Z.ltb_spec t (later - 7 * 24 * 60 * 60 * 1000)) as [_|Hnew];
    [auto|lia].
Qed.

(** X8.  Retention is monotone in time: what a sweep removes from given
    files, a sweep of the same files at a later instant removes as well. *)
Theorem later_sweep_deletes_no_less `{Platform} (now later : Z)
  (d : filesystem) (path : string) :
  (now <= later <= 8640000000000000)%Z ->
  assoc path (cl_disk (cleanupOldLogs now d)) = None ->
  assoc path (cl_disk (cleanupOldLogs later d)) = None.
Proof.
  intros Hlater. rewrite !assoc_cleanup.
  destruct (doomed now d path) eqn:Hdoomed.
  - intros _. replace (doomed later d path) with true; [reflexivity|].
    symmetry. unfold doomed in *.
    destruct (child_of logDir path); [|discriminate].
    apply andb_true_iff in Hdoomed as [-> Hexpired]. cbn [andb].
    destruct (assoc path d) as [[content [|]|]|]; try discriminate.
    destruct (expired now content) as [[oldestLog|]|] eqn:Hold;
      try discriminate.
    now rewrite (expired_later now later content oldestLog Hlater Hold).
  - intros ->. now destruct (doomed later d path).
Qed.

(** ** Null entries and the sort of the index *)

Lemma null_or_not (v : json) : v = JNull \/ v <> JNull.
Proof. destruct v; (now left) || (right; discriminate). Qed.

Lemma null_among_or_not (a : list json) :
  In JNull a \/ Forall (fun v => v <> JNull) a.
Proof.
  induction a as [|x a [IH|IH]]; [right; constructor|left; now right|].
  destruct (null_or_not x) as [->|Hx]; [left; now left|].
  right. now constructor.
Qed.

Section NullEntries.
Context (comparefn : json -> json -> completion jsnum).
Hypothesis throws_on_null :
  forall a b, a = JNull \/ b = JNull -> comparefn a b = Throw TypeError.
Hypothesis returns_otherwise :
  forall a b, a <> JNull -> b <> JNull -> exists c, comparefn a b = Normal c.

Lemma sort_insert_returns (x : json) (sorted : list json) :
  x <> JNull -> Forall (fun v => v <> JNull) sorted ->
  exists r, sort_insert comparefn x sorted = Normal r.
Proof.
  intros Hx. induction 1 as [|y rest Hy _ [r IH]]; cbn [sort_insert]; eauto.
  destruct (returns_otherwise x y Hx Hy) as [c ->]. cbn [bind].
  destruct (sort_order c <=? 0)%Z; eauto.
  rewrite IH. cbn [bind]. eauto.
Qed.

(** The sort throws exactly on an array of at least two elements of which
    one is null. *)
Lemma Array_sort_null (a : list json) :
  (2 <= List.length a /\ In JNull a ->
   Array_sort comparefn a = Throw TypeError) /\
  (~ (2 <= List.length a /\ In JNull a) ->
   exists sorted, Array_sort comparefn a = Normal sorted).
Proof.
  induction a as [|x rest [IHthrow IHreturn]].
  - split; [cbn; lia|]. cbn. eauto.
  - destruct (null_among_or_not rest) as [Hnull|Hclean].
    + destruct rest as [|y [|z rest]]; [destruct Hnull| |].
      * destruct Hnull as [->|[]]. cbn [Array_sort sort_insert bind].
        rewrite (throws_on_null x JNull) by now right.
        split; [reflexivity|]. intros Hno. exfalso. apply Hno.
        cbn. split; [lia|auto].
      * cbn [Array_sort] in *. rewrite IHthrow by (cbn [List.length]; split;
                                                    [lia|assumption]).
        split; [reflexivity|]. intros Hno. exfalso. apply Hno.
        cbn [List.length]. split; [lia|now right].
    + destruct IHreturn as [sorted Hsorted].
      { intros [_ Hin]. rewrite Forall_forall in Hclean.
        now apply (Hclean _ Hin). }
      cbn [Array_sort]. rewrite Hsorted. cbn [bind].
      assert (Hclean' : Forall (fun v => v <> JNull) sorted).
      { eapply Permutation_Forall; [|exact Hclean].
        now apply (Array_sort_permutation comparefn). }
      destruct (null_or_not x) as [->|Hx].
      * destruct sorted as [|y sorted].
        -- apply (Array_sort_permutation comparefn) in Hsorted.
           apply Permutation_sym, Permutation_nil in Hsorted. subst rest.
           cbn. split; [lia|eauto].
        -- cbn [sort_insert]. rewrite (throws_on_null JNull y) by now left.
           split; [reflexivity|]. intros Hno. exfalso. apply Hno.
           apply (Array_sort_permutation comparefn) in Hsorted.
           apply Permutation_length in Hsorted. cbn [List.length] in *.
           split; [lia|now left].
      * destruct (sort_insert_returns x sorted Hx Hclean') as [r ->].
        split; [|eauto]. intros [_ [Hin|Hin]]; [congruence|].
        rewrite Forall_forall in Hclean. now destruct (Hclean _ Hin).
Qed.

End NullEntries.

Lemma newest_first_null `{Platform} (a b : json) :
  a = JNull \/ b = JNull -> newest_first a b = Throw TypeError.
Proof.
  unfold newest_first. intros [->| ->]; [|reflexivity].
  now destruct b.
Qed.

Lemma newest_first_returns `{Platform} (a b : json) :
  a <> JNull -> b <> JNull -> exists c, newest_first a b = Normal c.
Proof.
  unfold newest_first. intros Ha Hb.
  destruct a, b; try congruence; cbn [get bind]; eauto.
Qed.

Lemma newest_first_or_epoch_null `{Platform} (a b : json) :
  a = JNull \/ b = JNull -> newest_first_or_epoch a b = Throw TypeError.
Proof.
  unfold newest_first_or_epoch. intros [->| ->]; [reflexivity|].
  now destruct a.
Qed.

Lemma newest_first_or_epoch_returns `{Platform} (a b : json) :
  a <> JNull -> b <> JNull -> exists c, newest_first_or_epoch a b = Normal c.
Proof.
  unfold newest_first_or_epoch. intros Ha Hb.
  destruct a, b; try congruence; cbn [get bind]; eauto.
Qed.

Lemma load_fold_console `{Platform} (d : filesystem) (files : list string)
  (st : list json * list log_line) :
  Forall (fun line => forall e, line <> LoadError e) (snd st) ->
  Forall (fun line => forall e, line <> LoadError e)
    (snd (fold_left (load_file d) files st)).
Proof.
  revert st. induction files as [|file files IH]; intros st Hst; [exact Hst|].
  cbn [fold_left]. apply IH. unfold load_file.
  destruct (endsWith file ".json"); [|exact Hst].
  destruct (fileContent <- readFileSync d (path_join [logDir; file]);;
            JSON_parse fileContent) as [[| | | | |]|]; cbn [snd]; try exact Hst.
  apply Forall_app. split; [exact Hst|]. constructor; [|constructor].
  discriminate.
Qed.

(** X9.  A rebuild of the index sorts the stored entries unless one of them
    is null and there are at least two: then the sort throws a TypeError,
    the rebuild logs it and the index is left in the order in which the
    files were read.  In every other case the sort returns and no load error
    is logged. *)
Theorem rebuild_is_unsorted_on_a_null_entry `{Platform} (d : filesystem) :
  let entries := stored_entries d in
  let rebuilt := loadLogsFromFiles d in
  (2 <= List.length entries /\ In JNull entries ->
   fst rebuilt = entries /\ In (LoadError TypeError) (snd rebuilt)) /\
  (~ (2 <= List.length entries /\ In JNull entries) ->
   Array_sort newest_first entries = Normal (fst rebuilt) /\
   forall e, ~ In (LoadError e) (snd rebuilt)).
Proof.
  intros entries rebuilt.
  destruct (Array_sort_null newest_first newest_first_null
              newest_first_returns entries) as [Hthrow Hreturn].
  assert (Hloaded : fst (fold_left (load_file d) (readdirSync d logDir)
                           ([], [])) = entries).
  { now rewrite load_fold. }
  pose proof (load_fold_console d (readdirSync d logDir) ([], [])
                (Forall_nil _)) as Hconsole.
  subst rebuilt. unfold loadLogsFromFiles. cbv zeta. rewrite Hloaded.
  split.
  - intros Hnull. rewrite (Hthrow Hnull). cbn [fst snd].
    split; [reflexivity|]. apply in_or_app. right. now left.
  - intros Hclean. destruct (Hreturn Hclean) as [sorted ->]. cbn [fst snd].
    split; [reflexivity|]. intros e Hin.
    rewrite Forall_forall in Hconsole. now apply (Hconsole _ Hin e).
Qed.

Lemma Array_sort_throws `{Platform} (a : list json) (e : error) :
  Array_sort newest_first_or_epoch a = Throw e ->
  e = TypeError /\ 2 <= List.length a /\ In JNull a.
Proof.
  intros Hthrow.
  destruct (Array_sort_null newest_first_or_epoch newest_first_or_epoch_null
              newest_first_or_epoch_returns a) as [Hnull Hclean].
  destruct (Nat.le_gt_cases 2 (List.length a)) as [Hlen|Hlen].
  - destruct (null_among_or_not a) as [Hin|Hnone].
    + rewrite (Hnull (conj Hlen Hin)) in Hthrow.
      injection Hthrow as <-. auto.
    + destruct Hclean as [sorted Hsorted]; [|congruence].
      intros [_ Hin]. rewrite Forall_forall in Hnone.
      now apply (Hnone _ Hin).
  - destruct Hclean as [sorted Hsorted]; [lia|congruence].
Qed.

(** ** POST /api/logs/save *)

Lemma handle_POST_save `{Platform} (now : Z) (text : string) (s : server) :
  handle now (POST_save text) s =
  match save_log now text s with
  | (s', Normal r) => (s', r)
  | (s', Throw e) =>
      ({| disk := disk s'; allLogs := allLogs s';
          console := console s' ++ [ServerError e] |},
       reply 500 (JObj [("error", JStr "Internal server error");
                        ("details", JStr (message e))]))
  end.
Proof. reflexivity. Qed.

(** Closes the case of a save that ends before it writes. *)
Ltac unchanged_outcome :=
  cbn [snd fst status reply disk allLogs];
  solve [repeat split; intros; try discriminate; try reflexivity; auto].

(** X10.  A save is answered 200, 400 or 500.  Answered 400 it has changed
    nothing.  Answered 500 it has either changed neither the files nor the
    index, or it has already written the file and appended the data to the
    index, unsorted and without a sweep: that is the case when the sort of
    the index throws, on a null entry among at least two. *)
Theorem failed_save_may_have_written `{Platform} (now : Z) (text : string)
  (s : server) :
  let out := handle now (POST_save text) s in
  (status (snd out) = 200 \/ status (snd out) = 400 \/
   status (snd out) = 500) /\
  (status (snd out) = 400 -> fst out = s) /\
  (status (snd out) = 500 ->
   (disk (fst out) = disk s /\ allLogs (fst out) = allLogs s) \/
   exists b logData fileName,
     parseBody text = Normal b /\
     get b "logData" = Normal (Some logData) /\
     get b "fileName" = Normal (Some (JStr fileName)) /\
     writeFileSync (disk s)
       (path_join [logDir; (sanitize fileName ++ ".json")%string])
       (JSON_stringify (data_to_save logData) 2) = Normal (disk (fst out)) /\
     allLogs (fst out) = allLogs s ++ as_array (data_to_save logData) /\
     2 <= List.length (allLogs (fst out)) /\
     In JNull (allLogs (fst out))).
Proof.
  intros out. subst out. rewrite handle_POST_save. unfold save_log.
  destruct (parseBody text) as [b|] eqn:Hb; cbn [bind];
    [|unchanged_outcome].
  destruct (get b "logData") as [logData|] eqn:HlogData; cbn [bind];
    [|unchanged_outcome].
  destruct (get b "fileName") as [fileName|] eqn:HfileName; cbn [bind];
    [|unchanged_outcome].
  destruct logData as [logData|]; [|unchanged_outcome].
  destruct (ToBoolean (Some logData)); [|unchanged_outcome].
  destruct fileName as [[| | |fileName| |]|];
    try (destruct (ToBoolean _); unchanged_outcome); try unchanged_outcome.
  destruct (ToBoolean (Some (JStr fileName))); [|unchanged_outcome].
  destruct (writeFileSync _ _ _) as [written|] eqn:Hwrite;
    [|unchanged_outcome].
  destruct (Array_sort _ _) as [sorted|e] eqn:Hsort; [unchanged_outcome|].
  apply Array_sort_throws in Hsort as (-> & Hlen & Hnull).
  cbn [snd fst status reply disk allLogs].
  split; [auto|]. split; [discriminate|]. intros _. right.
  exists b, logData, fileName. repeat split; assumption.
Qed.

(** ** The order of a patched index *)


Lemma handle_POST_upload `{Platform} (now : Z) (text : string) (s : server) :
  handle now (POST_upload text) s =
  match upload_logs now text s with
  | (s', Normal r) => (s', r)
  | (s', Throw e) =>
      ({| disk := disk s'; allLogs := allLogs s';
          console := console s' ++ [ServerError e] |},
       reply 500 (JObj [("error", JStr "Internal server error");
                        ("details", JStr (message e))]))
  end.
Proof. reflexivity. Qed.

(** What an upload that answers 200 has done. *)
Lemma upload_logs_success `{Platform} (now : Z) (text : string) (s : server) :
  status (snd (handle now (POST_upload text) s)) = 200 ->
  exists b logsData,
    parseBody text = Normal b /\
    get b "logsData" = Normal (Some logsData) /\
    as_array logsData <> [] /\
    Array_sort newest_first_or_epoch (allLogs s ++ as_array logsData) =
      Normal (allLogs (fst (handle now (POST_upload text) s))) /\
    writeFileSync (disk s)
      (path_join [logDir;
                  (sanitize ("uploaded_" ++ decimalZ now) ++ ".json")%string])
      (JSON_stringify (JArr (as_array logsData)) 2) =
      Normal (disk (fst (handle now (POST_upload text) s))).
Proof.
  rewrite handle_POST_upload. unfold upload_logs.
  destruct (parseBody text) as [b|] eqn:Hb; cbn [bind]; [|other_status].
  destruct (get b "logsData") as [logsData|] eqn:HlogsData; [|other_status].
  destruct logsData as [logsData|]; [|other_status].
  destruct (ToBoolean (Some logsData)); [|other_status].
  cbv zeta.
  destruct (as_array logsData) as [|first rest] eqn:Harray; [other_status|].
  cbn [List.length Nat.eqb].
  destruct (Array_sort _ _) as [sorted|] eqn:Hsort; [|other_status].
  destruct (writeFileSync _ _ _) as [written|] eqn:Hwrite; [|other_status].
  intros _. exists b, logsData. rewrite Harray. cbn [fst disk allLogs].
  repeat split; try assumption. discriminate.
Qed.


(** ** POST /api/logs/upload *)

Lemma sanitize_app (a b : string) :
  sanitize (a ++ b) = (sanitize a ++ sanitize b)%string.
Proof.
  induction a as [|c a IH]; [reflexivity|].
  cbn [append sanitize]. now rewrite IH.
Qed.

Lemma sanitize_digits (d : Decimal.uint) :
  sanitize (NilEmpty.string_of_uint d) = NilEmpty.string_of_uint d.
Proof.
  induction d as [|d IH|d IH|d IH|d IH|d IH|d IH|d IH|d IH|d IH|d IH];
    cbn [NilEmpty.string_of_uint sanitize]; [reflexivity|..];
    now rewrite IH.
Qed.

(** The name of an upload's file needs no replacement. *)
Lemma sanitize_uploaded (now : Z) :
  sanitize ("uploaded_" ++ decimalZ now) = ("uploaded_" ++ decimalZ now)%string.
Proof.
  rewrite sanitize_app. f_equal. unfold decimalZ, NilZero.string_of_int.
  assert (Huint : forall d, sanitize (NilZero.string_of_uint d) =
                            NilZero.string_of_uint d).
  { intros d. unfold NilZero.string_of_uint.
    destruct d; try reflexivity; apply sanitize_digits. }
  destruct (Z.to_int now) as [d|d]; [apply Huint|].
  cbn [sanitize]. now rewrite Huint.
Qed.

(** X12.  An upload never removes or rewrites another file than its own,
    [uploaded_<now>.json] in the log directory, whatever its outcome, and it
    runs no sweep.  Answered 400 it has changed nothing; answered 200 it has
    stored the logs, as an array, in its file and the index is the sort of
    the index it found with the logs appended; with any other answer the
    files are as they were. *)
Theorem upload_stores_logs_without_sweeping `{Platform} (now : Z)
  (text : string) (s : server) :
  let out := handle now (POST_upload text) s in
  let filePath :=
    path_join [logDir; ("uploaded_" ++ decimalZ now ++ ".json")%string] in
  (forall path, path <> filePath ->
                assoc path (disk (fst out)) = assoc path (disk s)) /\
  (status (snd out) = 400 -> fst out = s) /\
  (status (snd out) = 200 ->
   exists b logsData,
     parseBody text = Normal b /\
     get b "logsData" = Normal (Some logsData) /\
     as_array logsData <> [] /\
     readFileSync (disk (fst out)) filePath =
       Normal (JSON_stringify (JArr (as_array logsData)) 2) /\
     Array_sort newest_first_or_epoch (allLogs s ++ as_array logsData) =
       Normal (allLogs (fst out))) /\
  (status (snd out) <> 200 -> disk (fst out) = disk s).
Proof.
  intros out filePath.
  assert (Hpath : path_join
                    [logDir;
                     (sanitize ("uploaded_" ++ decimalZ now) ++ ".json")%string]
                  = filePath).
  { subst filePath. now rewrite sanitize_uploaded, <- append_assoc. }
  split; [|split; [|split]].
  - intros path Hother. subst out. rewrite handle_POST_upload.
    unfold upload_logs.
    destruct (parseBody text) as [b|]; cbn [bind]; [|reflexivity].
    destruct (get b "logsData") as [[logsData|]|]; try reflexivity.
    destruct (ToBoolean (Some logsData)); [|reflexivity].
    cbv zeta.
    destruct (List.length (as_array logsData) =? 0)%nat; [reflexivity|].
    destruct (Array_sort _ _); [|reflexivity].
    rewrite Hpath.
    destruct (writeFileSync _ _ _) as [written|] eqn:Hwrite; [|reflexivity].
    cbn [fst disk]. now apply (writeFileSync_spec _ _ _ _ Hwrite).
  - subst out. rewrite handle_POST_upload. unfold upload_logs.
    destruct (parseBody text) as [b|]; cbn [bind]; [|other_status].
    destruct (get b "logsData") as [[logsData|]|];
      try reflexivity; try other_status.
    destruct (ToBoolean (Some logsData)); [|reflexivity].
    cbv zeta.
    destruct (List.length (as_array logsData) =? 0)%nat; [reflexivity|].
    destruct (Array_sort _ _); [|other_status].
    destruct (writeFileSync _ _ _); other_status.
  - intros Hok.
    destruct (upload_logs_success now text s Hok)
      as (b & logsData & Hb & HlogsData & Hlogs & Hsort & Hwrite).
    rewrite Hpath in Hwrite. fold out in Hsort, Hwrite.
    exists b, logsData. repeat split; try assumption.
    unfold readFileSync.
    now rewrite (proj1 (writeFileSync_spec _ _ _ _ Hwrite)).
  - subst out. rewrite handle_POST_upload. unfold upload_logs.
    destruct (parseBody text) as [b|]; cbn [bind]; [|reflexivity].
    destruct (get b "logsData") as [[logsData|]|]; try reflexivity.
    destruct (ToBoolean (Some logsData)); [|reflexivity].
    cbv zeta.
    destruct (List.length (as_array logsData) =? 0)%nat; [reflexivity|].
    destruct (Array_sort _ _); [|reflexivity].
    destruct (writeFileSync _ _ _); [|reflexivity].
    cbn [snd status reply]. congruence.
Qed.

(** X13.  Two uploads in the same millisecond share one file: after both are
    answered 200 the file holds the logs of the second alone, while the index
    holds the logs of both. *)
Theorem uploads_in_one_millisecond_share_a_file `{Platform} (now : Z)
  (first second : string) (s : server) :
  let once := handle now (POST_upload first) s in
  let twice := handle now (POST_upload second) (fst once) in
  status (snd once) = 200 ->
  status (snd twice) = 200 ->
  exists b1 b2 logs1 logs2,
    parseBody first = Normal b1 /\ get b1 "logsData" = Normal (Some logs1) /\
    parseBody second = Normal b2 /\ get b2 "logsData" = Normal (Some logs2) /\
    readFileSync (disk (fst twice))
      (path_join [logDir; ("uploaded_" ++ decimalZ now ++ ".json")%string]) =
      Normal (JSON_stringify (JArr (as_array logs2)) 2) /\
    Permutation (allLogs s ++ as_array logs1 ++ as_array logs2)
      (allLogs (fst twice)).
Proof.
  intros once twice Honce Htwice.
  destruct (upload_logs_success now first s Honce)
    as (b1 & logs1 & Hb1 & Hlogs1 & _ & Hsort1 & _).
  destruct (upload_logs_success now second (fst once) Htwice)
    as (b2 & logs2 & Hb2 & Hlogs2 & _ & Hsort2 & Hwrite).
  fold once in Hsort1. fold twice in Hsort2, Hwrite.
  rewrite sanitize_uploaded, append_assoc in Hwrite.
  exists b1, b2, logs1, logs2. repeat split; try assumption.
  - unfold readFileSync.
    now rewrite (proj1 (writeFileSync_spec _ _ _ _ Hwrite)).
  - apply (Array_sort_permutation newest_first_or_epoch) in Hsort1, Hsort2.
    rewrite <- Hsort2, <- Hsort1, <- app_assoc. reflexivity.
Qed.

(** ** GET /api/logs/list *)

Lemma assoc_Some_In {A : Type} (key : string) (v : A)
  (l : list (string * A)) :
  assoc key l = Some v -> In (key, v) l.
Proof.
  induction l as [|[k w] l IH]; cbn [assoc]; [discriminate|].
  destruct (String.eqb_spec k key) as [->|_].
  - intros [= ->]. now left.
  - intros Hl. right. auto.
Qed.

Lemma In_assoc {A : Type} (key : string) (v : A) (l : list (string * A)) :
  In (key, v) l -> assoc key l <> None.
Proof.
  induction l as [|[k w] l IH]; cbn [assoc In]; [contradiction|].
  destruct (String.eqb_spec k key) as [->|Hk]; [discriminate|].
  intros [[= -> _]|Hin]; [congruence|auto].
Qed.

Lemma readdirSync_exists (d : filesystem) (dir name : string) :
  In name (readdirSync d dir) <->
  dirent name = true /\ existsSync d (dir ++ String "/" name) = true.
Proof.
  unfold readdirSync, existsSync. rewrite in_flat_map. split.
  - intros ([path n] & Hin & Hname). cbn [fst] in Hname.
    destruct (child_of dir path) as [name'|] eqn:Hchild; [|contradiction].
    destruct Hname as [->|[]].
    apply child_of_inv in Hchild as [-> Hdirent].
    split; [exact Hdirent|].
    apply In_assoc in Hin.
    now destruct (assoc (dir ++ String "/" name) d).
  - intros [Hdirent Hexists].
    destruct (assoc (dir ++ String "/" name) d) as [n|] eqn:Hassoc;
      [|discriminate].
    exists ((dir ++ String "/" name)%string, n).
    split; [now apply assoc_Some_In|].
    cbn [fst]. rewrite (child_of_join _ _ Hdirent). now left.
Qed.

(** X14.  GET /api/logs/list changes nothing and answers 200 with the names
    of the [.json] entries of the log directory and their number: a name is
    listed exactly when it is an entry name ending in [.json] under which
    something exists in the log directory. *)
Theorem listing_shows_the_json_entries `{Platform} (now : Z) (s : server) :
  exists files,
    handle now GET_list s =
      (s, reply 200 (JObj [("success", JBool true);
                           ("count", JNum (Z.of_nat (List.length files)));
                           ("files", JArr (map JStr files))])) /\
    forall name,
      In name files <->
      dirent name = true /\ endsWith name ".json" = true /\
      existsSync (disk s) (path_join [logDir; name]) = true.
Proof.
  exists (filter (fun f => endsWith f ".json") (readdirSync (disk s) logDir)).
  split; [reflexivity|].
  intros name. rewrite filter_In, readdirSync_exists. split.
  - intros [[Hdirent Hexists] Hjson]. rewrite (logDir_join _ Hdirent). auto.
  - intros [Hdirent [Hjson Hexists]].
    rewrite (logDir_join _ Hdirent) in Hexists. auto.
Qed.

(** ** Loading *)

Lemma load_fold_errors `{Platform} (d : filesystem) (files : list string)
  (st : list json * list log_line) :
  snd (fold_left (load_file d) files st) =
  snd st ++
  flat_map (fun file =>
              if endsWith file ".json" then
                match read_logs d file with
                | Throw e => [ReadError file e]
                | Normal _ => []
                end
              else []) files.
Proof.
  revert st. induction files as [|file files IH]; intros st.
  - cbn. now rewrite app_nil_r.
  - cbn [fold_left flat_map]. rewrite IH, app_assoc. f_equal.
    unfold load_file, read_logs.
    destruct (endsWith file ".json"); [|now rewrite app_nil_r].
    destruct (fileContent <- readFileSync d (path_join [logDir; file]);;
              JSON_parse fileContent) as [[| | | | |]|];
      cbn [snd]; now rewrite ?app_nil_r.
Qed.

(** X15.  A load reports exactly the files it could not take: the console
    holds the line of a read error for [file] with exception [e] exactly
    when [file] is a [.json] entry of the log directory whose read or parse
    throws [e].  The load goes on with the other files: the index it leaves
    holds the entries of every file that could be read. *)
Theorem load_reports_unreadable_files `{Platform} (d : filesystem)
  (file : string) (e : error) :
  (In (ReadError file e) (snd (loadLogsFromFiles d)) <->
   In file (readdirSync d logDir) /\ endsWith file ".json" = true /\
   read_logs d file = Throw e) /\
  (forall entry other,
      In other (readdirSync d logDir) -> In entry (file_entries d other) ->
      In entry (fst (loadLogsFromFiles d))).
Proof.
  split.
  - assert (Hloaded :
              In (ReadError file e) (snd (loadLogsFromFiles d)) <->
              In (ReadError file e)
                (snd (fold_left (load_file d) (readdirSync d logDir)
                        ([], [])))).
    { unfold loadLogsFromFiles. cbv zeta.
      destruct (Array_sort newest_first _); cbn [snd]; [reflexivity|].
      rewrite in_app_iff. cbn [In]. split; [|auto].
      intros [Hin|[Hin|[]]]; [exact Hin|discriminate]. }
    rewrite Hloaded, load_fold_errors. cbn [snd app]. rewrite in_flat_map.
    split.
    + intros (file' & Hin & Hline).
      destruct (endsWith file' ".json") eqn:Hjson; [|contradiction].
      destruct (read_logs d file') as [|e'] eqn:Hread; [contradiction|].
      destruct Hline as [[= -> ->]|[]]. auto.
    + intros (Hin & Hjson & Hread). exists file.
      split; [exact Hin|]. rewrite Hjson, Hread. now left.
  - intros entry other Hin Hentry.
    eapply Permutation_in;
      [symmetry; apply loadLogsFromFiles_permutation|].
    unfold stored_entries. apply in_flat_map. eauto.
Qed.

(** ** Startup *)

(** X16.  At startup the index is loaded before the first sweep runs: it
    holds the entries of all the files found, those of the files the sweep
    then deletes included, while the files are those the sweep has left. *)
Theorem startup_index_precedes_the_sweep `{Platform} (now : Z)
  (d : filesystem) :
  let s := startup now d in
  let swept := cleanupOldLogs now d in
  disk s = cl_disk swept /\
  Permutation (allLogs s) (stored_entries d) /\
  (forall file entry,
      In file (deletedFiles swept) -> In entry (file_entries d file) ->
      In entry (allLogs s) /\
      existsSync (disk s) (path_join [logDir; file]) = false).
Proof.
  intros s swept. split; [reflexivity|].
  assert (Hperm : Permutation (allLogs s) (stored_entries d))
    by apply loadLogsFromFiles_permutation.
  split; [exact Hperm|].
  intros file entry Hdeleted Hentry.
  apply cleanup_summary_is_swept in Hdeleted as [Hlisted Hdoomed].
  split.
  - eapply Permutation_in; [symmetry; exact Hperm|].
    unfold stored_entries. apply in_flat_map. eauto.
  - subst s swept. unfold startup, existsSync. cbn [disk].
    now rewrite assoc_cleanup, Hdoomed.
Qed.

(* ------------------------------------------------------------------------- *)
(** ** The further properties on concrete logs                                *)
(* ------------------------------------------------------------------------- *)

Module FurtherOnNode.

Import Node Sample Further.

(** X2 on the read of a stream saved before. *)
Lemma reading_a_saved_stream_changes_nothing :
  let s := fst (handle jan15 (save (JArr [entry "2025-01-14T10:00:00Z"]) "t")
                  fresh) in
  status (snd (handle jan15 (GET_log "t") s)) = 200 /\
  disk (fst (handle jan15 (GET_log "t") s)) = disk s /\
  allLogs (fst (handle jan15 (GET_log "t") s)) = allLogs s.
Proof.
  cbv zeta. split; [vm_compute; reflexivity|].
  apply (@get_requests_change_nothing platform jan15 (GET_log "t")).
  reflexivity.
Defined.


(** X4 on the DELETE of a file that may not be removed: it is answered 500
    and the files are as before. *)
Lemma delete_of_a_locked_file_changes_nothing :
  let s := serving faulty_disk in
  status (snd (handle jan15 (DELETE_log "locked") s)) = 500 /\
  disk (fst (handle jan15 (DELETE_log "locked") s)) = disk s /\
  allLogs (fst (handle jan15 (DELETE_log "locked") s)) = allLogs s.
Proof.
  cbv zeta. split; [vm_compute; reflexivity|].
  apply (@failed_delete_changes_nothing platform jan15 "locked"
           (serving faulty_disk)).
  vm_compute. discriminate.
Defined.

(** X7 on the file of the retention boundary that the sweep deletes. *)
Lemma old_file_goes_for_its_old_entry :
  exists name content logs old t cutoff,
    (logDir ++ "/old.json")%string = path_join [logDir; name] /\
    endsWith name ".json" = true /\
    File (stringify (JArr [entry "2025-01-07T23:59:59Z"]) 2) false =
      File content false /\
    JSON_parse content = Normal logs /\
    In old (as_array logs) /\
    time_of old = Some t /\
    sevenDaysAgo jan15 = Time cutoff /\
    (t < cutoff)%Z.
Proof.
  apply (@cleanup_deletes_only_old_logs platform jan15 boundary_disk
           (logDir ++ "/old.json")%string
           (File (stringify (JArr [entry "2025-01-07T23:59:59Z"]) 2) false)).
  - vm_compute. reflexivity.
  - vm_compute. reflexivity.
Defined.

(** X8 on the files of the retention boundary, swept at 2025-01-15 and a
    day later. *)
Lemma old_file_goes_a_day_later_too :
  assoc (logDir ++ "/old.json")%string
    (cl_disk (cleanupOldLogs (jan15 + 86400000) boundary_disk)) = None.
Proof.
  apply (@later_sweep_deletes_no_less platform jan15 (jan15 + 86400000)
           boundary_disk).
  - unfold jan15. lia.
  - vm_compute. reflexivity.
Defined.

(** X9 on a file with a null entry before two entries in ascending order:
    the index stays as loaded. *)
Lemma null_entry_leaves_the_index_as_loaded :
  fst (loadLogsFromFiles null_disk) = stored_entries null_disk /\
  In (LoadError TypeError) (snd (loadLogsFromFiles null_disk)).
Proof.
  apply (@rebuild_is_unsorted_on_a_null_entry platform null_disk).
  split.
  - vm_compute. repeat constructor.
  - vm_compute. now left.
Defined.

(** X10 on a save of an array with a null entry: it is answered 500, and
    the file is written and the index extended all the same. *)
Lemma save_with_null_entry_fails_after_writing :
  let out := handle jan15
               (save (JArr [JNull; entry "2025-01-14T10:00:00Z"]) "t")
               fresh in
  status (snd out) = 500 /\
  existsSync (disk (fst out)) (path_join [logDir; "t.json"]) = true /\
  exists b logData fileName,
    parseBody (body (save (JArr [JNull; entry "2025-01-14T10:00:00Z"]) "t"))
      = Normal b /\
    get b "logData" = Normal (Some logData) /\
    get b "fileName" = Normal (Some (JStr fileName)) /\
    writeFileSync (disk fresh)
      (path_join [logDir; (sanitize fileName ++ ".json")%string])
      (JSON_stringify (data_to_save logData) 2) = Normal (disk (fst out)) /\
    allLogs (fst out) = allLogs fresh ++ as_array (data_to_save logData) /\
    2 <= List.length (allLogs (fst out)) /\
    In JNull (allLogs (fst out)).
Proof.
  cbv zeta.
  assert (Hfailed :
            status (snd (handle jan15
                           (save (JArr [JNull; entry "2025-01-14T10:00:00Z"])
                              "t") fresh)) = 500)
    by (vm_compute; reflexivity).
  split; [exact Hfailed|]. split; [vm_compute; reflexivity|].
  destruct (proj2 (proj2 (@failed_save_may_have_written platform jan15
                            (body (save (JArr [JNull;
                                               entry "2025-01-14T10:00:00Z"])
                                     "t")) fresh)) Hfailed)
    as [[Hdisk _]|Hwritten]; [|exact Hwritten].
  vm_compute in Hdisk. discriminate.
Defined.


(** X12 on an upload of two entries to an empty server. *)
Lemma uploaded_logs_are_stored :
  let logs := [entry "2025-01-01T00:00:00Z"; entry "2025-01-14T10:00:00Z"] in
  let out := handle jan15 (upload (JArr logs)) fresh in
  status (snd out) = 200 /\
  map fst (disk (fst out)) =
    [(logDir ++ "/uploaded_1736899200000.json")%string] /\
  exists b logsData,
    parseBody (body (upload (JArr logs))) = Normal b /\
    get b "logsData" = Normal (Some logsData) /\
    as_array logsData <> [] /\
    readFileSync (disk (fst out))
      (path_join [logDir;
                  ("uploaded_" ++ decimalZ jan15 ++ ".json")%string]) =
      Normal (JSON_stringify (JArr (as_array logsData)) 2) /\
    Array_sort newest_first_or_epoch (allLogs fresh ++ as_array logsData) =
      Normal (allLogs (fst out)).
Proof.
  cbv zeta.
  assert (Hok : status (snd (handle jan15
                               (upload (JArr [entry "2025-01-01T00:00:00Z";
                                              entry "2025-01-14T10:00:00Z"]))
                               fresh)) = 200)
    by (vm_compute; reflexivity).
  split; [exact Hok|]. split; [vm_compute; reflexivity|].
  exact (proj1 (proj2 (proj2
           (@upload_stores_logs_without_sweeping platform jan15
              (body (upload (JArr [entry "2025-01-01T00:00:00Z";
                                   entry "2025-01-14T10:00:00Z"])))
              fresh))) Hok).
Defined.

(** X13 on two uploads at one instant. *)
Lemma second_upload_takes_the_file :
  let once := handle jan15 (upload (JArr [entry "2025-01-14T10:00:00Z"]))
                fresh in
  let twice := handle jan15 (upload (JArr [entry "2025-01-14T11:00:00Z"]))
                 (fst once) in
  map fst (disk (fst twice)) =
    [(logDir ++ "/uploaded_1736899200000.json")%string] /\
  exists b1 b2 logs1 logs2,
    parseBody (body (upload (JArr [entry "2025-01-14T10:00:00Z"])))
      = Normal b1 /\
    get b1 "logsData" = Normal (Some logs1) /\
    parseBody (body (upload (JArr [entry "2025-01-14T11:00:00Z"])))
      = Normal b2 /\
    get b2 "logsData" = Normal (Some logs2) /\
    readFileSync (disk (fst twice))
      (path_join [logDir;
                  ("uploaded_" ++ decimalZ jan15 ++ ".json")%string]) =
      Normal (JSON_stringify (JArr (as_array logs2)) 2) /\
    Permutation (allLogs fresh ++ as_array logs1 ++ as_array logs2)
      (allLogs (fst twice)).
Proof.
  cbv zeta. split; [vm_compute; reflexivity|].
  apply (@uploads_in_one_millisecond_share_a_file platform jan15
           (body (upload (JArr [entry "2025-01-14T10:00:00Z"])))
           (body (upload (JArr [entry "2025-01-14T11:00:00Z"]))) fresh).
  - vm_compute. reflexivity.
  - vm_compute. reflexivity.
Defined.

End FurtherOnNode.
